(** * todo-backend: the todo store and its HTTP handlers

    A shallow embedding of the Go packages [models] (the in-memory todo
    store with its CSV persistence) and [controllers] (the HTTP handlers),
    followed by the properties of the store and of the handlers.

    Conventions of the embedding.
    - A Go [string] is a byte sequence: Rocq's [string].
    - A Go [map[string]Todo] is a [gmap string Todo].  A [range] loop over a
      map visits every entry once, in an order the language leaves
      unspecified: every function that ranges over a map takes the visiting
      order as an extra argument [ord], and the theorems hold for every
      order that enumerates the map ([ranges ord m]).
    - The package-level variables [todoStore] and [filePersistence] are
      passed in and out explicitly.
    - A Go [int] that counts the entries of a map is a [Z]; it cannot wrap,
      a map never holds 2^63 entries. *)

From Stdlib Require Import ZArith String Ascii List Lia.
From Stdlib Require Import Decimal DecimalString DecimalZ DecimalPos.
From Stdlib Require Import Sorting.Sorted Permutation.
From stdpp Require Import gmap strings list fin_maps relations sorting.

Local Open Scope string_scope.
Local Open Scope Z_scope.

(* ===================================================================== *)
(** * Package [strconv] (Go's standard library), as far as it is used *)
(* ===================================================================== *)

Module strconv.

Inductive NumError := ErrSyntax | ErrRange.

(** [FormatBool] returns "true" or "false". *)
Definition FormatBool (b : bool) : string :=
  if b then "true" else "false".

(** [ParseBool] accepts 1, t, T, TRUE, true, True, 0, f, F, FALSE, false,
    False; any other value is a syntax error (with result [false]). *)
Definition ParseBool (str : string) : bool * option NumError :=
  if bool_decide (str ∈ ["1"; "t"; "T"; "TRUE"; "true"; "True"])
  then (true, None)
  else if bool_decide (str ∈ ["0"; "f"; "F"; "FALSE"; "false"; "False"])
  then (false, None)
  else (false, Some ErrSyntax).

(** [Itoa i] is the decimal representation of [i], with a leading [-] for
    a negative number. *)
Definition Itoa (i : Z) : string :=
  NilZero.string_of_int (Z.to_int i).

(** The value of a decimal digit byte. *)
Definition digit (c : ascii) : option Z :=
  let b := Z.of_N (N_of_ascii c) in
  if (48 <=? b) && (b <=? 57) then Some (b - 48) else None.

Definition maxUint64 : Z := 2 ^ 64 - 1.

(** The digit loop of [ParseUint] in base 10 at 64 bits: [n] is a uint64,
    the wrap-around of [n + d] is what the range check looks for. *)
Fixpoint ParseUint_loop (s : string) (n : Z) : Z * option NumError :=
  match s with
  | EmptyString => (n, None)
  | String c s' =>
      match digit c with
      | None => (0, Some ErrSyntax)
      | Some d =>
          let cutoff := maxUint64 / 10 + 1 in
          if cutoff <=? n then (maxUint64, Some ErrRange)
          else
            let n := n * 10 in
            let n1 := (n + d) mod 2 ^ 64 in
            if (n1 <? n) || (maxUint64 <? n1) then (maxUint64, Some ErrRange)
            else ParseUint_loop s' n1
      end
  end.

Definition ParseUint (s : string) : Z * option NumError :=
  match s with
  | EmptyString => (0, Some ErrSyntax)
  | _ => ParseUint_loop s 0
  end.

(** [ParseInt s 10 64]: an optional sign, then [ParseUint]; a syntax
    error gives 0, a value out of range gives the nearest int64. *)
Definition ParseInt (s : string) : Z * option NumError :=
  match s with
  | EmptyString => (0, Some ErrSyntax)
  | String c s' =>
      let neg := bool_decide (c = "-"%char) in
      let s := if bool_decide (c = "+"%char) || neg then s' else s in
      match ParseUint s with
      | (_, Some ErrSyntax) => (0, Some ErrSyntax)
      | (un, _) =>
          let cutoff := 2 ^ 63 in
          if negb neg && (cutoff <=? un) then (cutoff - 1, Some ErrRange)
          else if neg && (cutoff <? un) then (- cutoff, Some ErrRange)
          else (if neg then - un else un, None)
      end
  end.

(** [Atoi s] is [ParseInt s 10 0] converted to [int] (64 bits). *)
Definition Atoi (s : string) : Z * option NumError := ParseInt s.

End strconv.

(* ===================================================================== *)
(** * Package [models] *)
(* ===================================================================== *)

Module models.

Record Todo := mkTodo {
  Id : string;
  Title : string;
  Description : string;
  Terminated : bool
}.

#[export] Instance Todo_eq_dec : EqDecision Todo.
Proof. solve_decision. Defined.

(** The zero value [Todo{}]. *)
Definition Todo_zero : Todo :=
  mkTodo EmptyString EmptyString EmptyString false.

#[export] Instance Todo_inhabited : Inhabited Todo := populate Todo_zero.

(** The assignment [todo.Id = id] on a local copy of a todo. *)
Definition set_Id (id : string) (t : Todo) : Todo :=
  mkTodo id (Title t) (Description t) (Terminated t).

Definition Serialize (t : Todo) : list string :=
  [Id t; Title t; Description t; strconv.FormatBool (Terminated t)].

(** [ToBool] drops the error of [ParseBool]. *)
Definition ToBool (info : string) : bool :=
  (strconv.ParseBool info).1.

(** [parseTodoData rec] reads [rec[0]] to [rec[3]]; an index out of range
    panics ([None]). *)
Definition parseTodoData (rec : list string) : option Todo :=
  id ← rec !! 0%nat;
  title ← rec !! 1%nat;
  description ← rec !! 2%nat;
  terminated ← ToBool <$> rec !! 3%nat;
  Some (mkTodo id title description terminated).

(** ** The store *)

(** [ranges ord m]: [ord] is an order in which a [range] loop may visit
    the entries of [m]. *)
Definition ranges (ord : list (string * Todo)) (m : gmap string Todo) : Prop :=
  ord ≡ₚ map_to_list m.

(** [len(m)] *)
Definition len (m : gmap string Todo) : Z := Z.of_nat (size m).

(** The statement [for k, v := range m { body }] as a fold of [body] over
    the entries of [m] in the order [ord] of the visit; [a] is the state
    the body updates. *)
Definition range {A : Type} (ord : list (string * Todo)) (m : gmap string Todo)
    (body : A → string → Todo → A) (a : A) : A :=
  foldl (λ a kv, body a kv.1 kv.2) a ord.

(** [clone]: [m2] starts empty and receives [m2[k] = v] for each entry
    visited. *)
Definition clone (ord : list (string * Todo)) (m : gmap string Todo)
  : gmap string Todo :=
  let m2 : gmap string Todo := ∅ in
  range ord m (λ m2 k v, <[k := v]> m2) m2.

(** [TodoStore()] returns a clone of the store. *)
Definition TodoStore (ord : list (string * Todo)) (todoStore : gmap string Todo)
  : gmap string Todo :=
  clone ord todoStore.

(** [AddTodo todo]: the new store and the todo returned. *)
Definition AddTodo (todoStore : gmap string Todo) (todo : Todo)
  : gmap string Todo * Todo :=
  let indexAsInt := len todoStore in
  let indexAsString := strconv.Itoa indexAsInt in
  let todo := set_Id indexAsString todo in
  (<[indexAsString := todo]> todoStore, todo).

(** [UpdateTodo id todo]: the new store, the todo returned and the flag. *)
Definition UpdateTodo (todoStore : gmap string Todo) (id : string) (todo : Todo)
  : gmap string Todo * (Todo * bool) :=
  match todoStore !! id with
  | None => (todoStore, (Todo_zero, false))
  | Some _ =>
      let todo := if bool_decide (id ≠ Id todo) then set_Id id todo else todo in
      (<[id := todo]> todoStore, (todo, true))
  end.

(** The body of the loop of [RemoveTodo] on the entry visited; the state
    is the temporary store and [index]. *)
Definition RemoveTodo_body (id : string) (st : gmap string Todo * Z)
    (_ : string) (currentTodo : Todo) : gmap string Todo * Z :=
  let '(tempTodoStore, index) := st in
  if bool_decide (id ≠ Id currentTodo) then
    let indexAsString := strconv.Itoa index in
    let currentTodo := set_Id indexAsString currentTodo in
    (<[indexAsString := currentTodo]> tempTodoStore, index + 1)
  else (tempTodoStore, index).

(** [RemoveTodo id]: the new store and the flag. *)
Definition RemoveTodo (ord : list (string * Todo))
    (todoStore : gmap string Todo) (id : string) : gmap string Todo * bool :=
  match todoStore !! id with
  | None => (todoStore, false)
  | Some _ =>
      let tempTodoStore : gmap string Todo := ∅ in
      let index := 0 in
      let '(tempTodoStore, _) :=
        range ord todoStore (RemoveTodo_body id) (tempTodoStore, index) in
      (tempTodoStore, true)
  end.

Definition DeleteAllTodos (todoStore : gmap string Todo) : gmap string Todo := ∅.

(** ** Persistence *)

(** What [csv.Reader.Read] returns call after call on the opened file:
    records, then [io.EOF] or an error. *)
Inductive CsvStream :=
| csv_EOF
| csv_error
| csv_record (records : list string) (rest : CsvStream).

(** The file [data.csv] as the load sees it: [os.Open] fails ([None]) or
    gives a file with its records and the outcome of [Close]. *)
Record File := mkFile { file_csv : CsvStream; file_close_ok : bool }.

Inductive error := ErrOpen | ErrRead | ErrClose.

(** A function whose body may panic returns [None] then. A map value that
    may be [nil] is an [option]: [None] is the nil map. *)
Fixpoint getDataFromFile_loop (r : CsvStream) (readTodos : gmap string Todo)
    (rowIndex : Z) : option (option (gmap string Todo) * option error) :=
  match r with
  | csv_EOF => Some (Some readTodos, None)
  | csv_error => Some (None, Some ErrRead)
  | csv_record records rest =>
      let rowIndexAsString := strconv.Itoa rowIndex in
      todo ← parseTodoData records;
      getDataFromFile_loop rest (<[rowIndexAsString := todo]> readTodos)
        (rowIndex + 1)
  end.

Definition getDataFromFile (file : option File)
  : option (option (gmap string Todo) * option error) :=
  match file with
  | None => Some (None, Some ErrOpen)
  | Some f =>
      res ← getDataFromFile_loop (file_csv f) ∅ 0;
      match res with
      | (Some readTodos, None) =>
          if file_close_ok f then Some (Some readTodos, None)
          else Some (None, Some ErrClose)
      | _ => Some res
      end
  end.

(** [Initialize()]: with persistence on, [todoStore] becomes what
    [getDataFromFile] returned (nil when it failed), the error is
    dropped. *)
Definition Initialize (filePersistence : bool)
    (todoStore : option (gmap string Todo)) (file : option File)
  : option (option (gmap string Todo)) :=
  if filePersistence then
    res ← getDataFromFile file;
    Some res.1
  else Some todoStore.

(** [UpdateDataInFile()]: with persistence on, the file is truncated and
    receives one record per todo in the order visited; the state is the
    list of records of the file. Failures of the file system on this
    path end the process and are outside the model. *)
Definition UpdateDataInFile (filePersistence : bool)
    (ord : list (string * Todo)) (todoStore : gmap string Todo)
    (dataFile : list (list string)) : list (list string) :=
  if filePersistence then
    let written : list (list string) := [] in
    range ord todoStore
      (λ written _ todo, (written ++ [Serialize todo])%list) written
  else dataFile.

(** ** Response types *)

Inductive ApiError := mkApiError (Status : Z) (Title : string).

Inductive JsonResponse :=
| JsonExtendedResponse (Data : Todo)
| JsonDataResponse (Data : list Todo)
| JsonErrorResponse (Error : ApiError).

End models.

Import models.

(* ===================================================================== *)
(** * Maps as reference values *)
(* ===================================================================== *)

(** A Go map value is a reference: two variables may denote one map, and an
    assignment through either is seen through both. This module keeps the
    maps in a heap of locations, to tell a copy from an alias. *)
Module refs.

Definition loc := positive.

(** [make(map[string]Todo, n)]: a fresh location holding an empty map. *)
Definition make (h : gmap loc (gmap string Todo))
  : gmap loc (gmap string Todo) * loc :=
  let l := fresh (dom h) in (<[l := ∅]> h, l).

(** The operations on a map through a reference:
    [m[k] = v], [delete(m, k)] and [clear(m)]. *)
Inductive mutation :=
| Assign (k : string) (v : Todo)
| Delete (k : string)
| Clear.

Definition mutate (m : loc) (h : gmap loc (gmap string Todo)) (op : mutation)
  : gmap loc (gmap string Todo) :=
  match op with
  | Assign k v => alter (<[k := v]>) m h
  | Delete k => alter (delete k) m h
  | Clear => alter (λ _, ∅) m h
  end.

(** [clone(m)] on the heap: [m2] is a new map, filled entry by entry. *)
Definition clone (ord : list (string * Todo)) (h : gmap loc (gmap string Todo))
    (m : loc) : gmap loc (gmap string Todo) * loc :=
  let '(h, m2) := make h in
  (foldl (λ h kv, mutate m2 h (Assign kv.1 kv.2)) h ord, m2).

(** [TodoStore()], where the variable [todoStore] holds a reference. *)
Definition TodoStore (ord : list (string * Todo))
    (h : gmap loc (gmap string Todo)) (todoStore : loc)
  : gmap loc (gmap string Todo) * loc :=
  clone ord h todoStore.

End refs.

(* ===================================================================== *)
(** * Package [controllers] *)
(* ===================================================================== *)

Module controllers.

(** ** The libraries the handlers call *)

(** [sort.Slice(x, less)] sorts [x] in place by [less] and is not stable.
    It is modelled by the insertion sort that the library runs on a short
    slice: the element at [i] moves left while it is less than its left
    neighbour. The sorted prefix is kept from right to left. *)
Section sort.
Context {A : Type} (less : A → A → bool).

Fixpoint insertion (x : A) (prefix : list A) : list A :=
  match prefix with
  | [] => [x]
  | y :: prefix' =>
      if less x y then y :: insertion x prefix' else x :: prefix
  end.

Definition sort_Slice (x : list A) : list A :=
  rev (foldl (λ prefix a, insertion a prefix) [] x).
End sort.

(** [http.ResponseWriter]: the header map, the status once it is written
    and the values encoded to the body. *)
Record ResponseWriter := mkResponseWriter {
  header : gmap string string;
  status : option Z;
  body : list JsonResponse
}.

Definition StatusOK : Z := 200.
Definition StatusBadRequest : Z := 400.
Definition StatusNotFound : Z := 404.

(** [writer.Header().Set(key, value)] *)
Definition Header_Set (key value : string) (writer : ResponseWriter)
  : ResponseWriter :=
  mkResponseWriter (<[key := value]> (header writer)) (status writer)
    (body writer).

(** [writer.WriteHeader(code)]; a second call changes nothing. *)
Definition WriteHeader (code : Z) (writer : ResponseWriter) : ResponseWriter :=
  match status writer with
  | None => mkResponseWriter (header writer) (Some code) (body writer)
  | Some _ => writer
  end.

(** [json.NewEncoder(writer).Encode(response)]: the first write sends
    status 200 when none was written. The write itself does not fail in
    the model. *)
Definition Encode (response : JsonResponse) (writer : ResponseWriter)
  : ResponseWriter :=
  let writer := WriteHeader StatusOK writer in
  mkResponseWriter (header writer) (status writer)
    (body writer ++ [response])%list.

(** [httprouter.Params] and [ByName]: the value of the first parameter of
    that name, the empty string when there is none. *)
Definition ByName (params : list (string * string)) (name : string) : string :=
  match list_find (λ kv, kv.1 = name) params with
  | Some (_, kv) => kv.2
  | None => EmptyString
  end.

(** The request: its body is nil ([None]) or the bytes received. *)
Record Request := mkRequest { Body : option string }.

(** ** The handlers *)

Definition sortTodosAfterIdAscending (todos : list Todo) : list Todo :=
  sort_Slice
    (λ left right,
       let leftValueAsInt := (strconv.Atoi (Id left)).1 in
       let rightValueAsInt := (strconv.Atoi (Id right)).1 in
       leftValueAsInt <? rightValueAsInt)
    todos.

(** [TodosGet]: [ord_clone] is the order of the visit inside
    [TodoStore()], [ord] the order of the handler's own loop over the
    clone. *)
Definition TodosGet (ord_clone ord : list (string * Todo))
    (todoStore : gmap string Todo) (writer : ResponseWriter) : ResponseWriter :=
  let todos : list Todo := [] in
  let todos :=
    range ord (TodoStore ord_clone todoStore)
      (λ todos _ todo, (todos ++ [todo])%list) todos in
  let sortedTodos := sortTodosAfterIdAscending todos in
  let response := JsonDataResponse sortedTodos in
  let writer :=
    Header_Set "Content-Type" "application/json; charset=UTF-8" writer in
  let writer := WriteHeader StatusOK writer in
  Encode response writer.

Definition handleTodoIdNotFound (writer : ResponseWriter) : ResponseWriter :=
  let writer := WriteHeader StatusNotFound writer in
  let response := JsonErrorResponse (mkApiError 404 "Record Not Found") in
  Encode response writer.

Definition handleTodoNotProperlyTransmitted (writer : ResponseWriter)
  : ResponseWriter :=
  let writer := WriteHeader StatusBadRequest writer in
  let response := JsonErrorResponse (mkApiError 400 "Invalid Body") in
  Encode response writer.

Definition handleTodoNotProperlyTransmittedGeneral (writer : ResponseWriter)
    (title : string) : ResponseWriter :=
  let writer := WriteHeader StatusBadRequest writer in
  let response := JsonErrorResponse (mkApiError 400 title) in
  Encode response writer.

Section handlers.
(** [json.NewDecoder(body).Decode(todo)] is a parameter: it reads the
    bytes of the body into the todo it is given, or fails ([None]). *)
Variable json_Decode : string → Todo → option Todo.

(** [decodeTodo request todo]: [None] is the error, otherwise the todo
    decoded. *)
Definition decodeTodo (request : Request) (todo : Todo) : option Todo :=
  match Body request with
  | None => None
  | Some bytes => json_Decode bytes todo
  end.

(** [TodoPut]: the state is the store, the response writer and the
    records of the data file. [ord_clone] is the order of the visit
    inside [TodoStore()], [ord_save] the one inside
    [UpdateDataInFile()]. *)
Definition TodoPut (ord_clone ord_save : list (string * Todo))
    (filePersistence : bool) (todoStore : gmap string Todo)
    (dataFile : list (list string))
    (writer : ResponseWriter) (request : Request)
    (params : list (string * string))
  : gmap string Todo * list (list string) * ResponseWriter :=
  let id := ByName params "id" in
  let ok := TodoStore ord_clone todoStore !! id in
  let writer :=
    Header_Set "Content-Type" "application/json; charset=UTF-8" writer in
  match ok with
  | None => (todoStore, dataFile, handleTodoIdNotFound writer)
  | Some _ =>
      let todoReceived := Todo_zero in
      match decodeTodo request todoReceived with
      | None =>
          (todoStore, dataFile, handleTodoNotProperlyTransmitted writer)
      | Some todoReceived =>
          let '(todoStore, (todoUpdated, ok)) :=
            UpdateTodo todoStore id todoReceived in
          if negb ok then
            (todoStore, dataFile,
             handleTodoNotProperlyTransmittedGeneral writer
               "Update data model failed")
          else
            let response := JsonExtendedResponse todoUpdated in
            let writer := WriteHeader StatusOK writer in
            let writer := Encode response writer in
            let dataFile :=
              UpdateDataInFile filePersistence ord_save todoStore dataFile in
            (todoStore, dataFile, writer)
      end
  end.
End handlers.

End controllers.

Import controllers.

(* ===================================================================== *)
(** * The rest of the two packages *)
(* ===================================================================== *)

(** The store when the variable [todoStore] may hold the nil map, as it
    does after a load that failed: [None] is nil. Reading a nil map is
    reading an empty map; assigning to an entry of a nil map panics
    ([None] as a result). *)
Module nilmap.

(** [len(todoStore)], 0 for nil. *)
Definition len (todoStore : option (gmap string Todo)) : Z :=
  models.len (default ∅ todoStore).

(** [AddTodo] on a store that may be nil: the assignment
    [todoStore[indexAsString] = todo] panics on nil. *)
Definition AddTodo (todoStore : option (gmap string Todo)) (todo : Todo)
  : option (option (gmap string Todo) * Todo) :=
  let indexAsInt := len todoStore in
  let indexAsString := strconv.Itoa indexAsInt in
  let todo := set_Id indexAsString todo in
  match todoStore with
  | None => None
  | Some m => Some (Some (<[indexAsString := todo]> m), todo)
  end.

(** [UpdateTodo] on a store that may be nil: the lookup in nil finds
    nothing, so the assignment is not reached. *)
Definition UpdateTodo (todoStore : option (gmap string Todo)) (id : string)
    (todo : Todo) : option (gmap string Todo) * (Todo * bool) :=
  match default ∅ todoStore !! id with
  | None => (todoStore, (Todo_zero, false))
  | Some _ =>
      let todo := if bool_decide (id ≠ Id todo) then set_Id id todo else todo in
      (Some (<[id := todo]> (default ∅ todoStore)), (todo, true))
  end.

(** [RemoveTodo] on a store that may be nil. *)
Definition RemoveTodo (ord : list (string * Todo))
    (todoStore : option (gmap string Todo)) (id : string)
  : option (gmap string Todo) * bool :=
  match default ∅ todoStore !! id with
  | None => (todoStore, false)
  | Some _ =>
      let tempTodoStore : gmap string Todo := ∅ in
      let index := 0 in
      let '(tempTodoStore, _) :=
        range ord (default ∅ todoStore) (RemoveTodo_body id)
          (tempTodoStore, index) in
      (Some tempTodoStore, true)
  end.

End nilmap.

(** The start of [controllers.Run]: the persistence flag is set from the
    argument, then [Initialize] runs; the result is the flag and the store
    ([None] when the load panicked). The server loop that follows is not
    part of the model. *)
Module startup.

Definition EnableFilePersistence (filePersistence : bool) : bool := true.

Definition DisableFilePersistence (filePersistence : bool) : bool := false.

Definition Run (enablePersistence : bool) (filePersistence : bool)
    (todoStore : option (gmap string Todo)) (file : option File)
  : option (bool * option (gmap string Todo)) :=
  let filePersistence :=
    if enablePersistence then EnableFilePersistence filePersistence
    else DisableFilePersistence filePersistence in
  todoStore ← Initialize filePersistence todoStore file;
  Some (filePersistence, todoStore).

End startup.

(** The helper of the tests of package [models]. *)
Module models_test.

(** The loop of [areStringSlicesEqual] from index [i] on, [a] being what is
    left of the first slice; [b[i]] panics ([None]) when out of range. *)
Fixpoint areStringSlicesEqual_loop (i : nat) (a b : list string) : option bool :=
  match a with
  | [] => Some true
  | v :: a =>
      bi ← b !! i;
      if bool_decide (v ≠ bi) then Some false
      else areStringSlicesEqual_loop (S i) a b
  end.

Definition areStringSlicesEqual (a b : list string) : option bool :=
  if bool_decide (length a ≠ length b) then Some false
  else areStringSlicesEqual_loop 0 a b.

(** [TestTodo_AddTodo]: [true] when the test passes, that is when [t.Error]
    is not called. [todoStore] is the store when the test runs. *)
Definition TestTodo_AddTodo (todoStore : gmap string Todo) : bool :=
  let todoTest := mkTodo "0" "Test1" "Beschrieb" false in
  let want := todoTest in
  let got := (AddTodo todoStore todoTest).2 in
  negb (bool_decide (got ≠ want)).

End models_test.

(** The handlers of package [controllers] beside [TodosGet] and [TodoPut].
    As for [TodoPut], the state is the store, the records of the data file
    and the response writer; each [ord_...] argument is the order of the
    visit of one loop over a map. *)
Module routes.

Definition StatusCreated : Z := 201.

(** [TodoGetById]; without a call of [WriteHeader] the first write sends
    status 200. *)
Definition TodoGetById (ord_clone : list (string * Todo))
    (todoStore : gmap string Todo) (writer : ResponseWriter)
    (params : list (string * string)) : ResponseWriter :=
  let id := ByName params "id" in
  let found := TodoStore ord_clone todoStore !! id in
  let writer :=
    Header_Set "Content-Type" "application/json; charset=UTF-8" writer in
  match found with
  | None => handleTodoIdNotFound writer
  | Some todo =>
      let response := JsonExtendedResponse todo in
      Encode response writer
  end.

Section post.
Variable json_Decode : string → Todo → option Todo.

Definition TodoPost (ord_save : list (string * Todo))
    (filePersistence : bool) (todoStore : gmap string Todo)
    (dataFile : list (list string))
    (writer : ResponseWriter) (request : Request)
  : gmap string Todo * list (list string) * ResponseWriter :=
  let writer :=
    Header_Set "Content-Type" "application/json; charset=UTF-8" writer in
  let todo := Todo_zero in
  match decodeTodo json_Decode request todo with
  | None => (todoStore, dataFile, handleTodoNotProperlyTransmitted writer)
  | Some todo =>
      let '(todoStore, todoAdded) := AddTodo todoStore todo in
      let response := JsonExtendedResponse todoAdded in
      let writer := WriteHeader StatusCreated writer in
      let writer := Encode response writer in
      let dataFile :=
        UpdateDataInFile filePersistence ord_save todoStore dataFile in
      (todoStore, dataFile, writer)
  end.
End post.

(** [TodoDelete]: [ord_remove] is the order of the visit inside
    [RemoveTodo]. The response has no body. *)
Definition TodoDelete (ord_clone ord_remove ord_save : list (string * Todo))
    (filePersistence : bool) (todoStore : gmap string Todo)
    (dataFile : list (list string))
    (writer : ResponseWriter) (params : list (string * string))
  : gmap string Todo * list (list string) * ResponseWriter :=
  let id := ByName params "id" in
  let found := TodoStore ord_clone todoStore !! id in
  let writer :=
    Header_Set "Content-Type" "application/json; charset=UTF-8" writer in
  match found with
  | None => (todoStore, dataFile, handleTodoIdNotFound writer)
  | Some _ =>
      let '(todoStore, _) := RemoveTodo ord_remove todoStore id in
      let writer := WriteHeader StatusOK writer in
      let dataFile :=
        UpdateDataInFile filePersistence ord_save todoStore dataFile in
      (todoStore, dataFile, writer)
  end.

(** [DeleteAllTodos], the handler: it sets no header. *)
Definition DeleteAllTodos (ord_save : list (string * Todo))
    (filePersistence : bool) (todoStore : gmap string Todo)
    (dataFile : list (list string)) (writer : ResponseWriter)
  : gmap string Todo * list (list string) * ResponseWriter :=
  let todoStore := models.DeleteAllTodos todoStore in
  let dataFile :=
    UpdateDataInFile filePersistence ord_save todoStore dataFile in
  let writer := WriteHeader StatusOK writer in
  (todoStore, dataFile, writer).

End routes.

(* ===================================================================== *)
(** * Notions the properties are stated with *)
(* ===================================================================== *)

(** The keys "0", "1", ..., "n-1". *)
Definition keys_upto (n : Z) : gset string :=
  list_to_set (strconv.Itoa <$> seqZ 0 n).

(** The keys of [m] are the decimal strings of 0 .. len(m) - 1. *)
Definition contiguous (m : gmap string Todo) : Prop :=
  dom m = keys_upto (len m).

(** Every todo of [m] carries its key in its [Id] field. *)
Definition ids_are_keys (m : gmap string Todo) : Prop :=
  map_Forall (λ k t, Id t = k) m.

(** [numbered m n]: the store holds [n] todos under the keys "0" .. "n-1",
    each with its key as [Id]. *)
Definition numbered (m : gmap string Todo) (n : Z) : Prop :=
  0 ≤ n ∧ dom m = keys_upto n ∧ ids_are_keys m.

(** [AddTodo] called on each todo of a list in turn: the final store and
    the todos returned. *)
Fixpoint AddTodos (todoStore : gmap string Todo) (todos : list Todo)
  : gmap string Todo * list Todo :=
  match todos with
  | [] => (todoStore, [])
  | todo :: todos =>
      let '(todoStore, added) := AddTodo todoStore todo in
      let '(todoStore, rest) := AddTodos todoStore todos in
      (todoStore, added :: rest)
  end.

(** One call of an operation of the store. *)
Inductive step : gmap string Todo → gmap string Todo → Prop :=
| step_AddTodo s todo :
    step s (AddTodo s todo).1
| step_UpdateTodo s id todo :
    step s (UpdateTodo s id todo).1
| step_RemoveTodo s id ord :
    ranges ord s → step s (RemoveTodo ord s id).1
| step_DeleteAllTodos s :
    step s (DeleteAllTodos s).

(** The stores that calls of the four operations build from the empty
    store. *)
Definition reachable (s : gmap string Todo) : Prop := rtc step ∅ s.

(** What the reader returns on a file that holds the records [rows] and
    reads without error. *)
Fixpoint csv_of_rows (rows : list (list string)) : CsvStream :=
  match rows with
  | [] => csv_EOF
  | records :: rows => csv_record records (csv_of_rows rows)
  end.

(** The todo that the columns of a record spell. *)
Definition todo_of_columns (id title description terminated : string) : Todo :=
  mkTodo id title description (ToBool terminated).

(** The response writer a handler receives: nothing written yet. *)
Definition ResponseWriter_new : ResponseWriter :=
  mkResponseWriter ∅ None [].

(** The comparison of two elements by an integer key, as the [less] function
    handed to [sort.Slice] makes it, and the order it sorts into. *)
Definition less_by {A : Type} (key : A → Z) (a b : A) : bool :=
  key a <? key b.
Definition le_by {A : Type} (key : A → Z) (a b : A) : Prop :=
  key a ≤ key b.

(** The number the handlers read in the [Id] of a todo: the result of
    [Atoi], its error dropped. *)
Definition numeric_id (todo : Todo) : Z := (strconv.Atoi (Id todo)).1.

(** The todos of a store under the keys "0" .. "n-1", in that order. *)
Definition in_key_order (s : gmap string Todo) (n : Z) : list Todo :=
  (λ i, s !!! strconv.Itoa i) <$> seqZ 0 n.

(** Ascending by numeric id. *)
Definition ascending_by_id (todos : list Todo) : Prop :=
  StronglySorted (le_by numeric_id) todos.

(** The header that every JSON response carries. *)
Definition json_header : gmap string string :=
  {["Content-Type" := "application/json; charset=UTF-8"]}.

(** A decoder for the samples: it knows one body and rejects the others. *)
Definition sample_Decode (bytes : string) (todo : Todo) : option Todo :=
  if bool_decide (bytes = "{title:stamps}")
  then Some (mkTodo (Id todo) "stamps" (Description todo) (Terminated todo))
  else None.

(** ** Sample data *)

Definition milk : Todo := mkTodo "0" "milk" "two litres" false.
Definition bread : Todo := mkTodo "1" "bread" "rye" true.
Definition stray : Todo := mkTodo "7" "stamps" "ten" false.

(** A store as the four operations build it. *)
Definition pantry : gmap string Todo := {["0" := milk; "1" := bread]}.

(** A store as a load leaves it when the id column of the only row of the
    file is not the row's index. *)
Definition loaded_stray : gmap string Todo := {["0" := stray]}.

(** The records that [UpdateDataInFile] writes for [pantry] when its loop
    visits bread first, and the store that a load of them leaves: each todo
    sits under the index of its row. *)
Definition shuffled_rows : list (list string) :=
  UpdateDataInFile true [("1", bread); ("0", milk)] pantry [].
Definition shuffled : gmap string Todo := {["0" := bread; "1" := milk]}.

(** The store [shuffled] after an update at "0": both todos carry the [Id]
    "0". *)
Definition reloaded : gmap string Todo :=
  {["0" := mkTodo "0" "stamps" "ten" false; "1" := milk]}.

(** A heap in which the variable [todoStore] refers to location 1. *)
Definition pantry_heap : gmap refs.loc (gmap string Todo) :=
  {[1%positive := pantry]}.

(** The records of a data file; the id column of the second is not its
    row index. *)
Definition pantry_rows : list (list string) :=
  [["0"; "milk"; "two litres"; "false"];
   ["9"; "bread"; "rye"; "true"]].

(** A PUT request for the todo "1" with a body the sample decoder knows. *)
Definition put_request : Request := mkRequest (Some "{title:stamps}").
Definition put_params : list (string * string) := [("id", "1")].

(** ** Further notions *)

(** What a todo says, its [Id] apart. *)
Definition content (todo : Todo) : string * string * bool :=
  (Title todo, Description todo, Terminated todo).

(** The entries that the loop of [RemoveTodo id] keeps, in the order of the
    visit. *)
Definition kept (id : string) (ord : list (string * Todo))
  : list (string * Todo) :=
  filter (λ kv, id ≠ Id kv.2) ord.

(** The records that the reader hands out before it reports the end of the
    file or an error. *)
Fixpoint records_of (r : CsvStream) : list (list string) :=
  match r with
  | csv_EOF | csv_error => []
  | csv_record records rest => records :: records_of rest
  end.

(** The reader ends with an error. *)
Fixpoint ends_in_error (r : CsvStream) : bool :=
  match r with
  | csv_EOF => false
  | csv_error => true
  | csv_record _ rest => ends_in_error rest
  end.

(** A record too short for [parseTodoData]. *)
Definition short (records : list string) : Prop := (length records < 4)%nat.

(** One call of an operation of the store, or one load that succeeds. *)
Inductive step_or_load : gmap string Todo → gmap string Todo → Prop :=
| sol_step s s' :
    step s s' → step_or_load s s'
| sol_load s file s' :
    Initialize true (Some s) file = Some (Some s') → step_or_load s s'.

(** The load reports an error: the file does not open, or its records all
    have their four columns and the reader or [Close] fails. *)
Definition load_fails (file : option File) : Prop :=
  match file with
  | None => True
  | Some f =>
      Forall (λ records, (4 ≤ length records)%nat) (records_of (file_csv f)) ∧
      (ends_in_error (file_csv f) = true ∨ file_close_ok f = false)
  end.

(** The load panics: a record before the end is too short. *)
Definition load_panics (file : option File) : Prop :=
  match file with
  | None => False
  | Some f => Exists short (records_of (file_csv f))
  end.

(** The data file holds one record per todo of the store, in some order. *)
Definition mirrors (dataFile : list (list string)) (s : gmap string Todo)
  : Prop :=
  dataFile ≡ₚ Serialize <$> (map_to_list s).*2.

(** The data file holds the records of the todos of a visit, one after the
    other in the order of the visit. *)
Definition written_in_order (dataFile : list (list string))
    (ord : list (string * Todo)) : Prop :=
  dataFile = Serialize <$> ord.*2.

(** The requests that [Run] routes to the handlers modelled here (GET / is
    left out): the route table as a dispatch on the request. Each request
    is served with a new response writer. *)
Inductive Call :=
| GET_todos
| GET_todos_id (params : list (string * string))
| POST_todos (request : Request)
| PUT_todos_id (request : Request) (params : list (string * string))
| DELETE_todos_id (params : list (string * string))
| DELETE_todos.

Definition serve (json_Decode : string → Todo → option Todo)
    (ord_clone ord_loop ord_save : list (string * Todo))
    (filePersistence : bool) (todoStore : gmap string Todo)
    (dataFile : list (list string)) (call : Call)
  : gmap string Todo * list (list string) * ResponseWriter :=
  match call with
  | GET_todos =>
      (todoStore, dataFile,
       TodosGet ord_clone ord_loop todoStore ResponseWriter_new)
  | GET_todos_id params =>
      (todoStore, dataFile,
       routes.TodoGetById ord_clone todoStore ResponseWriter_new params)
  | POST_todos request =>
      routes.TodoPost json_Decode ord_save filePersistence todoStore dataFile
        ResponseWriter_new request
  | PUT_todos_id request params =>
      TodoPut json_Decode ord_clone ord_save filePersistence todoStore dataFile
        ResponseWriter_new request params
  | DELETE_todos_id params =>
      routes.TodoDelete ord_clone ord_loop ord_save filePersistence todoStore
        dataFile ResponseWriter_new params
  | DELETE_todos =>
      routes.DeleteAllTodos ord_save filePersistence todoStore dataFile
        ResponseWriter_new
  end.

(** The request reads the store only. *)
Definition reads_only (call : Call) : bool :=
  match call with
  | GET_todos | GET_todos_id _ => true
  | _ => false
  end.

(** The response reports an error: its status is 400 or more. *)
Definition refused (writer : ResponseWriter) : Prop :=
  ∃ code, status writer = Some code ∧ 400 ≤ code.

(** A data file whose reader fails after one good record. *)
Definition broken_file : File :=
  mkFile (csv_record ["0"; "milk"; "two litres"; "false"] csv_error) true.

(** A data file with a record of three columns. *)
Definition short_file : File :=
  mkFile (csv_record ["0"; "milk"; "two litres"] csv_EOF) true.

(* ===================================================================== *)
(** * Properties of [strconv] *)
(* ===================================================================== *)

Section strconv_facts.
Import strconv.

Lemma to_int_not_nil (z : Z) :
  Z.to_int z ≠ Pos Nil ∧ Z.to_int z ≠ Neg Nil.
Proof.
  destruct z as [|p|p]; simpl; split; try discriminate;
    intros [= H]; by apply DecimalPos.Unsigned.to_uint_nonnil in H.
Qed.

Lemma Itoa_inj (a b : Z) : Itoa a = Itoa b → a = b.
Proof.
  unfold Itoa. intros H.
  apply DecimalZ.to_int_inj.
  destruct (to_int_not_nil a) as [Ha1 Ha2], (to_int_not_nil b) as [Hb1 Hb2].
  pose proof (NilZero.isi _ Ha1 Ha2) as Ea.
  pose proof (NilZero.isi _ Hb1 Hb2) as Eb.
  rewrite H in Ea. congruence.
Qed.

#[export] Instance Itoa_Inj : Inj (=) (=) Itoa.
Proof. intros a b. apply Itoa_inj. Qed.

Lemma of_uint_acc_le (d : uint) (acc : positive) :
  (acc <= Pos.of_uint_acc d acc)%positive.
Proof.
  revert acc. induction d; intros acc; simpl; try lia;
    (etransitivity; [|apply IHd]); lia.
Qed.

Lemma ParseUint_loop_digit (c : ascii) (s : string) (n d : Z) :
  digit c = Some d → 0 ≤ d → 0 ≤ n → n * 10 + d < 2 ^ 64 →
  ParseUint_loop (String c s) n = ParseUint_loop s (n * 10 + d).
Proof.
  intros Hd Hd0 Hn Hlt. cbn [ParseUint_loop]. rewrite Hd.
  change (maxUint64 / 10 + 1) with 1844674407370955162.
  change maxUint64 with 18446744073709551615.
  change (2 ^ 64) with 18446744073709551616 in *.
  rewrite Z.mod_small by lia.
  destruct (Z.leb_spec 1844674407370955162 n); [lia|].
  destruct (Z.ltb_spec (n * 10 + d) (n * 10)); [lia|].
  destruct (Z.ltb_spec 18446744073709551615 (n * 10 + d)); [lia|].
  done.
Qed.

Ltac step_digit :=
  match goal with
  | |- context [ParseUint_loop (String ?c ?s) ?n] =>
      let v := eval vm_compute in (digit c) in
      match v with
      | Some ?k =>
          rewrite (ParseUint_loop_digit c s n k) by (reflexivity || lia)
      end
  end.

Lemma ParseUint_loop_acc (d : uint) (acc : positive) :
  Z.pos (Pos.of_uint_acc d acc) < 2 ^ 64 →
  ParseUint_loop (NilEmpty.string_of_uint d) (Z.pos acc)
  = (Z.pos (Pos.of_uint_acc d acc), None).
Proof.
  revert acc. induction d; intros acc Hlt; [done|..];
    cbn [NilEmpty.string_of_uint Pos.of_uint_acc] in *;
    match goal with
    | H : Z.pos (Pos.of_uint_acc _ ?a) < _ |- _ =>
        pose proof (of_uint_acc_le d a) as Hle
    end;
    rewrite <- IHd by done;
    step_digit; f_equal; lia.
Qed.

Lemma ParseUint_loop_zero (d : uint) :
  Z.of_N (Pos.of_uint d) < 2 ^ 64 →
  ParseUint_loop (NilEmpty.string_of_uint d) 0 = (Z.of_N (Pos.of_uint d), None).
Proof.
  induction d; intros Hlt;
    cbn [NilEmpty.string_of_uint Pos.of_uint Z.of_N] in *; [done|..].
  1: { rewrite <- IHd by done. by step_digit. }
  all: rewrite <- ParseUint_loop_acc by done.
  all: by step_digit.
Qed.

(** [Atoi] reads back what [Itoa] writes for a number that fits an [int]. *)
Lemma Atoi_Itoa (i : Z) : 0 ≤ i < 2 ^ 63 → Atoi (Itoa i) = (i, None).
Proof.
  intros [H0 Hi]. destruct i as [|p|p]; [done| |lia].
  unfold Itoa, Atoi. cbn [Z.to_int NilZero.string_of_int].
  pose proof (DecimalPos.Unsigned.of_to p) as Hof.
  pose proof (DecimalPos.Unsigned.to_uint_nonnil p) as Hnil.
  assert (ParseUint_loop (NilEmpty.string_of_uint (Pos.to_uint p)) 0
          = (Z.pos p, None)) as Hloop.
  { rewrite ParseUint_loop_zero; rewrite Hof; [done|]. simpl.
    change (2 ^ 64) with 18446744073709551616.
    change (2 ^ 63) with 9223372036854775808 in Hi. lia. }
  destruct (Pos.to_uint p) as [|d|d|d|d|d|d|d|d|d|d]; [done|..];
    cbn [NilZero.string_of_uint NilEmpty.string_of_uint] in *;
    unfold ParseInt, ParseUint;
    rewrite !bool_decide_false by discriminate;
    cbn [orb andb negb]; rewrite Hloop;
    (destruct (Z.leb_spec (2 ^ 63) (Z.pos p)); [lia|done]).
Qed.
End strconv_facts.

(* ===================================================================== *)
(** * Properties of the numbering of the store *)
(* ===================================================================== *)

Section numbering.
Import strconv.
Implicit Types (m s : gmap string Todo) (n i : Z) (k id : string) (t : Todo).

Lemma elem_of_keys_upto k n :
  k ∈ keys_upto n ↔ ∃ i, 0 ≤ i < n ∧ k = Itoa i.
Proof.
  unfold keys_upto. rewrite elem_of_list_to_set, list_elem_of_fmap.
  split.
  - intros (i & -> & Hi). apply elem_of_seqZ in Hi. exists i. split; [lia|done].
  - intros (i & Hi & ->). exists i. split; [done|]. apply elem_of_seqZ. lia.
Qed.

Lemma size_keys_upto n : 0 ≤ n → size (keys_upto n) = Z.to_nat n.
Proof.
  intros Hn. unfold keys_upto.
  rewrite size_list_to_set.
  - by rewrite length_fmap, length_seqZ.
  - apply NoDup_fmap_2; [apply _|apply NoDup_seqZ].
Qed.

Lemma keys_upto_succ n :
  0 ≤ n → keys_upto (n + 1) = {[Itoa n]} ∪ keys_upto n.
Proof.
  intros Hn. apply set_eq. intros k.
  rewrite elem_of_union, elem_of_singleton, !elem_of_keys_upto.
  split.
  - intros (i & Hi & ->).
    destruct (decide (i = n)) as [->|]; [by left|].
    right. exists i. split; [lia|done].
  - intros [->|(i & Hi & ->)].
    + exists n. split; [lia|done].
    + exists i. split; [lia|done].
Qed.

Lemma Itoa_not_in_keys_upto n : Itoa n ∉ keys_upto n.
Proof.
  rewrite elem_of_keys_upto. intros (i & Hi & Heq).
  apply Itoa_inj in Heq. lia.
Qed.

Lemma numbered_len m n : numbered m n → len m = n.
Proof.
  intros (Hn & Hdom & _). unfold len.
  rewrite <- size_dom, Hdom, size_keys_upto by done. lia.
Qed.

Lemma numbered_intro m : contiguous m → ids_are_keys m → numbered m (len m).
Proof. intros Hc Hi. split; [unfold len; lia|done]. Qed.

Lemma numbered_elim m n : numbered m n → contiguous m ∧ ids_are_keys m.
Proof.
  intros H. pose proof (numbered_len _ _ H) as Hl.
  destruct H as (Hn & Hdom & Hids). split; [|done].
  unfold contiguous. by rewrite Hl.
Qed.

Lemma numbered_empty : numbered ∅ 0.
Proof.
  split; [done|]. split.
  - rewrite dom_empty_L. done.
  - apply map_Forall_empty.
Qed.

Lemma numbered_insert m n t :
  numbered m n → numbered (<[Itoa n := set_Id (Itoa n) t]> m) (n + 1).
Proof.
  intros (Hn & Hdom & Hids). split; [lia|]. split.
  - by rewrite dom_insert_L, Hdom, keys_upto_succ.
  - apply map_Forall_insert_2; done.
Qed.

Lemma numbered_lookup m n k :
  numbered m n → is_Some (m !! k) ↔ ∃ i, 0 ≤ i < n ∧ k = Itoa i.
Proof.
  intros (_ & Hdom & _).
  by rewrite <- elem_of_dom, Hdom, elem_of_keys_upto.
Qed.

(** ** [AddTodo] *)

Lemma AddTodo_numbered s t n :
  numbered s n → numbered (AddTodo s t).1 (n + 1).
Proof.
  intros H. unfold AddTodo. simpl.
  rewrite (numbered_len _ _ H). by apply numbered_insert.
Qed.

Lemma AddTodo_returns s t n :
  numbered s n → (AddTodo s t).2 = set_Id (Itoa n) t.
Proof.
  intros H. unfold AddTodo. simpl. by rewrite (numbered_len _ _ H).
Qed.

Lemma AddTodo_lookup s t n :
  numbered s n →
  (AddTodo s t).1 !! Itoa n = Some (set_Id (Itoa n) t) ∧
  ∀ k, k ≠ Itoa n → (AddTodo s t).1 !! k = s !! k.
Proof.
  intros H. unfold AddTodo. simpl. rewrite (numbered_len _ _ H). split.
  - apply lookup_insert_eq.
  - intros k Hk. by apply lookup_insert_ne.
Qed.

(** ** [UpdateTodo] *)

Lemma UpdateTodo_forced id t :
  (if bool_decide (id ≠ Id t) then set_Id id t else t) = set_Id id t.
Proof.
  case_bool_decide as H; [done|].
  destruct t; simpl in *. by subst.
Qed.

Lemma UpdateTodo_numbered s id t n :
  numbered s n → numbered (UpdateTodo s id t).1 n.
Proof.
  intros H. unfold UpdateTodo.
  destruct (s !! id) as [old|] eqn:Hid; simpl; [|done].
  rewrite UpdateTodo_forced.
  destruct H as (Hn & Hdom & Hids). split; [done|]. split.
  - rewrite dom_insert_L, <- Hdom.
    apply elem_of_dom_2 in Hid. apply set_eq. intros k.
    rewrite elem_of_union, elem_of_singleton.
    split; [by intros [->|?]|by right].
  - by apply map_Forall_insert_2.
Qed.

(** ** [RemoveTodo] *)

(** The loop of [RemoveTodo] keeps the temporary store numbered, whatever
    the store it ranges over holds; [index] grows by the number of todos
    kept. *)
Lemma RemoveTodo_loop id (ord : list (string * Todo)) s m n :
  numbered m n →
  ∃ m', range ord s (RemoveTodo_body id) (m, n) =
          (m', n + Z.of_nat (length (filter (λ kv, id ≠ Id kv.2) ord))) ∧
        numbered m' (n + Z.of_nat (length (filter (λ kv, id ≠ Id kv.2) ord))).
Proof.
  unfold range. revert m n.
  induction ord as [|[k t] ord IH]; intros m n Hm; simpl.
  - exists m. rewrite Z.add_0_r. done.
  - rewrite filter_cons. simpl. case_bool_decide as Hk.
    + rewrite decide_True by done.
      destruct (IH _ _ (numbered_insert _ _ t Hm)) as (m' & Heq & Hm').
      exists m'. cbn [length].
      assert (∀ c : nat, n + Z.of_nat (S c) = n + 1 + Z.of_nat c) as ->
        by (intros; lia).
      done.
    + rewrite decide_False by (intros Hne; by apply Hne). by apply IH.
Qed.

Lemma RemoveTodo_numbered (ord : list (string * Todo)) s id :
  is_Some (s !! id) →
  ∃ n, numbered (RemoveTodo ord s id).1 n ∧ (RemoveTodo ord s id).2 = true ∧
       n = Z.of_nat (length (filter (λ kv, id ≠ Id kv.2) ord)).
Proof.
  intros [old Hid]. unfold RemoveTodo. rewrite Hid.
  destruct (RemoveTodo_loop id ord s ∅ 0 numbered_empty) as (m' & Heq & Hm').
  rewrite Heq. simpl. eexists. split; [exact Hm'|]. split; [done|lia].
Qed.

End numbering.

(* ===================================================================== *)
(** * The store operations *)
(* ===================================================================== *)

Section store.
Import strconv.
Implicit Types (m s : gmap string Todo) (n : Z) (k id : string) (t : Todo).
Implicit Types (ord : list (string * Todo)).

Lemma filter_Forall_id {A} (P : A → Prop) `{∀ x, Decision (P x)} (l : list A) :
  Forall P l → filter P l = l.
Proof.
  induction 1 as [|x l Hx Hl IH]; [done|].
  by rewrite filter_cons_True, IH.
Qed.

(** In a store whose todos carry their keys, the loop of [RemoveTodo] keeps
    every todo but the one under [id]. *)
Lemma RemoveTodo_kept s id ord :
  ranges ord s → ids_are_keys s → is_Some (s !! id) →
  S (length (filter (λ kv, id ≠ Id kv.2) ord)) = size s.
Proof.
  intros Hord Hids [old Hid]. unfold ranges in Hord.
  rewrite Hord, <- (map_to_list_delete s id old Hid).
  rewrite filter_cons_False.
  2:{ simpl. intros Hne. apply Hne. symmetry. exact (Hids id old Hid). }
  rewrite filter_Forall_id.
  - rewrite length_map_to_list. rewrite map_size_delete_Some; [|done].
    apply elem_of_dom_2, elem_of_dom in Hid.
    assert (size s ≠ 0%nat); [|lia].
    intros Hz. apply map_size_empty_inv in Hz. subst s.
    by rewrite lookup_empty in Hid; destruct Hid.
  - apply Forall_forall. intros [k t] Hkt. simpl.
    apply elem_of_map_to_list in Hkt.
    apply lookup_delete_Some in Hkt as [Hne Hk].
    rewrite (Hids k t Hk). done.
Qed.

(** On a store whose todos each carry their key in the [Id] field, as the
    four operations build it, [RemoveTodo id] with [id] present succeeds,
    the resulting store has exactly one entry fewer, its keys are the
    decimal strings "0" .. "n-1", and each todo's [Id] equals its key; this
    holds for every order in which the loop visits the store. *)
Theorem RemoveTodo_renumbers s id ord :
  ranges ord s → ids_are_keys s → is_Some (s !! id) →
  (RemoveTodo ord s id).2 = true ∧
  S (size (RemoveTodo ord s id).1) = size s ∧
  contiguous (RemoveTodo ord s id).1 ∧
  ids_are_keys (RemoveTodo ord s id).1.
Proof.
  intros Hord Hids Hid.
  destruct (RemoveTodo_numbered ord s id Hid) as (n & Hnum & Hok & Hn).
  pose proof (numbered_len _ _ Hnum) as Hlen.
  pose proof (RemoveTodo_kept s id ord Hord Hids Hid) as Hkept.
  destruct (numbered_elim _ _ Hnum) as [Hc Hi].
  split; [done|]. split; [|done].
  unfold len in Hlen. lia.
Qed.

(** Whatever the store holds, a successful [RemoveTodo] leaves a store that
    is numbered from 0, with as many entries as there were todos whose [Id]
    differs from [id]. *)
Lemma RemoveTodo_result_numbered s id ord :
  is_Some (s !! id) →
  contiguous (RemoveTodo ord s id).1 ∧
  ids_are_keys (RemoveTodo ord s id).1 ∧
  size (RemoveTodo ord s id).1 = length (filter (λ kv, id ≠ Id kv.2) ord).
Proof.
  intros Hid.
  destruct (RemoveTodo_numbered ord s id Hid) as (n & Hnum & Hok & Hn).
  pose proof (numbered_len _ _ Hnum) as Hlen.
  destruct (numbered_elim _ _ Hnum) as [Hc Hi].
  split; [done|]. split; [done|]. unfold len in Hlen. lia.
Qed.

(** C5. [UpdateTodo id todo] fails exactly when [id] is absent from the
    store; when [id] is present, the store afterwards is the store with the
    given todo, its [Id] forced to [id], at [id], and that stored todo is
    returned. *)
Theorem UpdateTodo_spec s id t :
  ((UpdateTodo s id t).2.2 = false ↔ s !! id = None) ∧
  (is_Some (s !! id) →
   UpdateTodo s id t = (<[id := set_Id id t]> s, (set_Id id t, true)) ∧
   (UpdateTodo s id t).1 !! id = Some (UpdateTodo s id t).2.1).
Proof.
  unfold UpdateTodo. destruct (s !! id) as [old|] eqn:Hid; simpl.
  - rewrite UpdateTodo_forced. split; [split; discriminate|].
    intros _. split; [done|]. apply lookup_insert_eq.
  - split; [done|]. intros [? [=]].
Qed.

(** C10. When [id] is absent from the store, [UpdateTodo id todo] and
    [RemoveTodo id] both report failure and the store afterwards is the
    store before. *)
Theorem absent_id_fails_unchanged s id t ord :
  s !! id = None →
  UpdateTodo s id t = (s, (Todo_zero, false)) ∧
  RemoveTodo ord s id = (s, false).
Proof.
  intros Hid. unfold UpdateTodo, RemoveTodo. by rewrite Hid.
Qed.

Lemma AddTodos_cons s t (todos : list Todo) :
  AddTodos s (t :: todos) =
  ((AddTodos (AddTodo s t).1 todos).1,
   (AddTodo s t).2 :: (AddTodos (AddTodo s t).1 todos).2).
Proof.
  change (AddTodos s (t :: todos)) with
    (let '(s1, added) := AddTodo s t in
     let '(s2, rest) := AddTodos s1 todos in (s2, added :: rest)).
  destruct (AddTodo s t) as [s1 added]. cbn [fst snd].
  by destruct (AddTodos s1 todos).
Qed.

(** [AddTodos] on a numbered store. *)
Lemma AddTodos_numbered (todos : list Todo) s n :
  numbered s n →
  (AddTodos s todos).2 = imap (λ i, set_Id (Itoa (n + Z.of_nat i))) todos ∧
  numbered (AddTodos s todos).1 (n + Z.of_nat (length todos)) ∧
  (∀ i : nat, (AddTodos s todos).1 !! Itoa (n + Z.of_nat i) =
     set_Id (Itoa (n + Z.of_nat i)) <$> todos !! i) ∧
  (∀ k, is_Some (s !! k) → (AddTodos s todos).1 !! k = s !! k).
Proof.
  revert s n. induction todos as [|t todos IH]; intros s n Hs.
  - simpl. split; [done|]. rewrite Z.add_0_r. split; [done|]. split; [|done].
    intros i. apply eq_None_not_Some. rewrite (numbered_lookup _ _ _ Hs).
    intros (j & Hj & Heq). apply Itoa_inj in Heq. lia.
  - pose proof (AddTodo_numbered s t n Hs) as Hs1.
    destruct (AddTodo_lookup s t n Hs) as [Hnew Hold].
    pose proof (AddTodo_returns s t n Hs) as Hret.
    destruct (IH _ _ Hs1) as (Hr & Hnum & Hlook & Hkeep).
    rewrite AddTodos_cons. cbn [fst snd length imap].
    set (s1 := (AddTodo s t).1) in *. set (added := (AddTodo s t).2) in *.
    set (s' := (AddTodos s1 todos).1) in *.
    set (rest := (AddTodos s1 todos).2) in *.
    assert (∀ i : nat, n + Z.of_nat (S i) = n + 1 + Z.of_nat i) as Hshift
      by (intros; lia).
    split.
    { rewrite Hret, Hr, Z.add_0_r. f_equal. apply imap_ext.
      intros i x _. simpl. by rewrite Hshift. }
    split.
    { by rewrite Hshift. }
    split.
    { intros [|i].
      - rewrite Z.add_0_r. simpl. rewrite Hkeep; [done|]. by rewrite Hnew.
      - rewrite Hshift. apply Hlook. }
    intros k Hk. rewrite Hkeep.
    + apply Hold. intros ->.
      apply (numbered_lookup _ _ _ Hs) in Hk as (j & Hj & Heq).
      apply Itoa_inj in Heq. lia.
    + rewrite Hold; [done|]. intros ->.
      apply (numbered_lookup _ _ _ Hs) in Hk as (j & Hj & Heq).
      apply Itoa_inj in Heq. lia.
Qed.

(** C2. From the empty store, adding N todos with [AddTodo] returns them
    with the ids "0", "1", ..., "N-1" in order, whatever [Id] each input
    carried, and stores the i-th of them, with that id, under the key that
    is the decimal string of i; the store has no other key. *)
Theorem AddTodos_from_empty (todos : list Todo) :
  Id <$> (AddTodos ∅ todos).2 = Itoa <$> seqZ 0 (Z.of_nat (length todos)) ∧
  (AddTodos ∅ todos).2 = imap (λ i, set_Id (Itoa (Z.of_nat i))) todos ∧
  dom (AddTodos ∅ todos).1 = keys_upto (Z.of_nat (length todos)) ∧
  ∀ i : nat, (AddTodos ∅ todos).1 !! Itoa (Z.of_nat i) =
    set_Id (Itoa (Z.of_nat i)) <$> todos !! i.
Proof.
  destruct (AddTodos_numbered todos ∅ 0 numbered_empty)
    as (Hr & Hnum & Hlook & _).
  rewrite !Z.add_0_l in *.
  assert ((AddTodos ∅ todos).2 = imap (λ i, set_Id (Itoa (Z.of_nat i))) todos)
    as Hr'.
  { rewrite Hr. apply imap_ext. intros i x _. simpl. by rewrite Z.add_0_l. }
  split; [|split; [done|split]].
  - rewrite Hr'. apply list_eq. intros i.
    rewrite !list_lookup_fmap, list_lookup_imap.
    destruct (todos !! i) as [t|] eqn:Ht; simpl.
    + apply lookup_lt_Some in Ht.
      rewrite (lookup_seqZ_lt 0 _ i) by lia. simpl. by rewrite Z.add_0_l.
    + apply lookup_ge_None in Ht.
      rewrite (lookup_seqZ_ge 0 _ i) by lia. done.
  - by destruct Hnum as (_ & Hdom & _).
  - intros i. specialize (Hlook i). by rewrite !Z.add_0_l in Hlook.
Qed.

(** Every step keeps a numbered store numbered. *)
Lemma step_numbered s s' :
  step s s' → (∃ n, numbered s n) → ∃ n', numbered s' n'.
Proof.
  intros Hstep [n Hs]. destruct Hstep as [s t|s id t|s id ord Hord|s].
  - eexists. by apply AddTodo_numbered.
  - eexists. by apply UpdateTodo_numbered.
  - destruct (s !! id) as [old|] eqn:Hid.
    + destruct (RemoveTodo_numbered ord s id (mk_is_Some _ _ Hid))
        as (n' & Hn' & _).
      by exists n'.
    + unfold RemoveTodo. rewrite Hid. by exists n.
  - exists 0. apply numbered_empty.
Qed.

(** C9. Every store that calls of [AddTodo], [UpdateTodo], [RemoveTodo]
    and [DeleteAllTodos] build from the empty store has as keys exactly the
    decimal strings "0" .. "n-1", n its size, and each of its todos carries
    its key in the [Id] field. *)
Theorem reachable_numbered s :
  reachable s → contiguous s ∧ ids_are_keys s.
Proof.
  intros Hreach.
  assert (∃ n, numbered s n) as [n Hn].
  { revert s Hreach. apply (rtc_ind_r (λ s, ∃ n, numbered s n) ∅).
    - exists 0. apply numbered_empty.
    - intros s s' _ Hstep IH. by eapply step_numbered. }
  by eapply numbered_elim.
Qed.

End store.

(* ===================================================================== *)
(** * The store operations on the sample stores *)
(* ===================================================================== *)

Lemma ranges_pantry : ranges [("0", milk); ("1", bread)] pantry.
Proof. unfold ranges. vm_compute. apply perm_swap. Qed.

Lemma ids_are_keys_pantry : ids_are_keys pantry.
Proof.
  unfold ids_are_keys. apply map_Forall_to_list. vm_compute.
  repeat constructor.
Qed.

Lemma RemoveTodo_renumbers_witness :
  ranges [("0", milk); ("1", bread)] pantry ∧
  ids_are_keys pantry ∧
  is_Some (pantry !! "0") ∧
  (RemoveTodo [("0", milk); ("1", bread)] pantry "0").2 = true ∧
  S (size (RemoveTodo [("0", milk); ("1", bread)] pantry "0").1) = size pantry ∧
  contiguous (RemoveTodo [("0", milk); ("1", bread)] pantry "0").1 ∧
  ids_are_keys (RemoveTodo [("0", milk); ("1", bread)] pantry "0").1.
Proof.
  split; [exact ranges_pantry|].
  split; [exact ids_are_keys_pantry|].
  split; [by eexists|].
  apply RemoveTodo_renumbers;
    [exact ranges_pantry|exact ids_are_keys_pantry|by eexists].
Defined.

(** On the store that holds the todo with [Id] "7" under the key "0",
    [RemoveTodo "0"] finds the key, reports success, and keeps the todo
    (renumbered), so the store has as many entries as before. *)
Lemma RemoveTodo_every_store_counterexample :
  ranges [("0", stray)] loaded_stray ∧
  is_Some (loaded_stray !! "0") ∧
  (RemoveTodo [("0", stray)] loaded_stray "0").2 = true ∧
  (RemoveTodo [("0", stray)] loaded_stray "0").1
    = {["0" := mkTodo "0" "stamps" "ten" false]} ∧
  S (size (RemoveTodo [("0", stray)] loaded_stray "0").1) ≠ size loaded_stray.
Proof.
  split; [unfold ranges; vm_compute; reflexivity|].
  split; [by eexists|].
  split; [reflexivity|].
  split; [vm_compute; reflexivity|].
  vm_compute. discriminate.
Qed.

(** Such stores arise in the program itself: the data file written for
    the sample store with bread visited first loads as a store in which
    bread sits under "0" and milk under "1"; after an update at "0" both
    todos carry the [Id] "0", and [RemoveTodo "0"] then drops both. *)
Example RemoveTodo_after_reload :
  Initialize true (Some pantry) (Some (mkFile (csv_of_rows shuffled_rows) true))
  = Some (Some shuffled) ∧
  (UpdateTodo shuffled "0" stray).1
  = {["0" := mkTodo "0" "stamps" "ten" false; "1" := milk]} ∧
  RemoveTodo (map_to_list (UpdateTodo shuffled "0" stray).1)
    (UpdateTodo shuffled "0" stray).1 "0"
  = (∅, true).
Proof. repeat split; vm_compute; reflexivity. Qed.

(** C1. [RemoveTodo] does not keep to the claim on every store: it finds
    [id] among the keys, but its loop drops the todos whose [Id] field is
    [id], not the todo under the key. The program reaches such a store by
    itself: the data file written for the sample store with bread visited
    first loads as [shuffled], and an update at "0" gives [reloaded], a
    store of two todos with the keys "0" and "1" that both carry the [Id]
    "0". There [RemoveTodo "0"] reports success and leaves the empty store,
    two entries fewer, and [RemoveTodo "1"] reports success and leaves two
    entries, none fewer, the todo under "1" still there. *)
Theorem RemoveTodo_filters_on_Id :
  Initialize true (Some pantry) (Some (mkFile (csv_of_rows shuffled_rows) true))
  = Some (Some shuffled) ∧
  (UpdateTodo shuffled "0" stray).1 = reloaded ∧
  ranges (map_to_list reloaded) reloaded ∧
  size reloaded = 2%nat ∧
  is_Some (reloaded !! "0") ∧
  RemoveTodo (map_to_list reloaded) reloaded "0" = (∅, true) ∧
  is_Some (reloaded !! "1") ∧
  RemoveTodo (map_to_list reloaded) reloaded "1"
  = ({["0" := milk; "1" := mkTodo "1" "stamps" "ten" false]}, true) ∧
  size (RemoveTodo (map_to_list reloaded) reloaded "1").1 = 2%nat.
Proof.
  split; [vm_compute; reflexivity|].
  split; [vm_compute; reflexivity|].
  split; [unfold ranges; reflexivity|].
  split; [reflexivity|].
  split; [by eexists|].
  split; [vm_compute; reflexivity|].
  split; [by eexists|].
  split; [vm_compute; reflexivity|].
  vm_compute. reflexivity.
Qed.

Lemma UpdateTodo_spec_witness :
  is_Some (pantry !! "1") ∧
  UpdateTodo pantry "1" stray
    = (<["1" := set_Id "1" stray]> pantry, (set_Id "1" stray, true)) ∧
  (UpdateTodo pantry "1" stray).1 !! "1" = Some (UpdateTodo pantry "1" stray).2.1.
Proof.
  assert (is_Some (pantry !! "1")) as H by (by eexists).
  split; [exact H|].
  exact (proj2 (UpdateTodo_spec pantry "1" stray) H).
Defined.

Lemma absent_id_fails_unchanged_witness :
  pantry !! "2" = None ∧
  UpdateTodo pantry "2" stray = (pantry, (Todo_zero, false)) ∧
  RemoveTodo [("0", milk); ("1", bread)] pantry "2" = (pantry, false).
Proof.
  split; [reflexivity|].
  apply absent_id_fails_unchanged. reflexivity.
Defined.

Lemma reachable_pantry : reachable pantry.
Proof.
  unfold reachable.
  eapply rtc_l; [apply (step_AddTodo _ stray)|].
  eapply rtc_l; [apply (step_AddTodo _ bread)|].
  eapply rtc_l; [apply (step_UpdateTodo _ "0" milk)|].
  assert (pantry =
    (UpdateTodo (AddTodo (AddTodo ∅ stray).1 bread).1 "0" milk).1) as <-
    by (vm_compute; reflexivity).
  apply rtc_refl.
Qed.

Lemma reachable_numbered_witness :
  reachable pantry ∧ contiguous pantry ∧ ids_are_keys pantry.
Proof.
  split; [exact reachable_pantry|].
  apply reachable_numbered. exact reachable_pantry.
Defined.

(* ===================================================================== *)
(** * Copies of the store *)
(* ===================================================================== *)

Section copies.
Implicit Types (m : gmap string Todo) (ord : list (string * Todo)).
Implicit Types (h : gmap refs.loc (gmap string Todo)).

Lemma ranges_NoDup ord m : ranges ord m → NoDup ord.*1.
Proof.
  unfold ranges. intros ->. apply NoDup_fst_map_to_list.
Qed.

(** Filling a map entry by entry from distinct keys builds the map of the
    entries. *)
Lemma fill_list_to_map ord :
  NoDup ord.*1 →
  foldl (λ (m2 : gmap string Todo) kv, <[kv.1 := kv.2]> m2) ∅ ord
  = list_to_map ord.
Proof.
  induction ord as [|[k v] ord IH] using rev_ind; [done|].
  rewrite fmap_app, NoDup_app. intros (Hnd & Hk & _).
  rewrite foldl_snoc, IH by done. simpl.
  rewrite list_to_map_snoc; [done|].
  intros Hin. apply (Hk k Hin). simpl. apply list_elem_of_here.
Qed.

(** The clone holds exactly the entries of the map, whatever the order of
    the visit. *)
Lemma clone_ranges ord m : ranges ord m → clone ord m = m.
Proof.
  intros Hord. unfold clone, range.
  rewrite fill_list_to_map by by eapply ranges_NoDup.
  rewrite <- (list_to_map_to_list m).
  apply list_to_map_proper; [by eapply ranges_NoDup|done].
Qed.

Lemma mutate_other (r l : refs.loc) h op :
  l ≠ r → refs.mutate r h op !! l = h !! l.
Proof.
  intros Hne. destruct op; simpl; by rewrite lookup_alter_ne.
Qed.

Lemma mutations_other (r l : refs.loc) (ops : list refs.mutation) h :
  l ≠ r → foldl (refs.mutate r) h ops !! l = h !! l.
Proof.
  intros Hne. revert h. induction ops as [|op ops IH]; intros h; [done|].
  simpl. by rewrite IH, mutate_other.
Qed.

(** The loop of [clone] on the heap fills the map at [m2]. *)
Lemma clone_loop_heap (m2 : refs.loc) ord h (c : gmap string Todo) :
  foldl (λ h kv, refs.mutate m2 h (refs.Assign kv.1 kv.2)) (<[m2 := c]> h) ord
  = <[m2 := foldl (λ (c : gmap string Todo) kv, <[kv.1 := kv.2]> c) c ord]> h.
Proof.
  revert c. induction ord as [|[k v] ord IH]; intros c; [done|].
  simpl. by rewrite alter_insert_eq, IH.
Qed.

Lemma TodoStore_heap ord h (todoStore : refs.loc) :
  refs.TodoStore ord h todoStore
  = (<[fresh (dom h) := clone ord (default ∅ (h !! todoStore))]> h,
     fresh (dom h)).
Proof.
  unfold refs.TodoStore, refs.clone, refs.make.
  by rewrite clone_loop_heap.
Qed.

(** C7. [TodoStore()] returns a copy of the store: the map returned holds
    exactly the entries of the store, it is a map of its own (no variable
    referred to it before, the store's least of all), and no sequence of
    assignments, deletions or clearing through the reference returned
    changes the map of the store. *)
Theorem TodoStore_snapshot ord h (todoStore : refs.loc) m :
  h !! todoStore = Some m → ranges ord m →
  (refs.TodoStore ord h todoStore).1 !! (refs.TodoStore ord h todoStore).2
    = Some m ∧
  h !! (refs.TodoStore ord h todoStore).2 = None ∧
  (refs.TodoStore ord h todoStore).2 ≠ todoStore ∧
  (refs.TodoStore ord h todoStore).1 !! todoStore = Some m ∧
  ∀ ops : list refs.mutation,
    foldl (refs.mutate (refs.TodoStore ord h todoStore).2)
      (refs.TodoStore ord h todoStore).1 ops !! todoStore = Some m.
Proof.
  intros Hm Hord. rewrite TodoStore_heap. cbn [fst snd].
  pose proof (is_fresh (dom h)) as Hfresh.
  assert (todoStore ≠ fresh (dom h)) as Hne.
  { intros Heq. apply Hfresh. rewrite <- Heq. by apply elem_of_dom_2 in Hm. }
  split.
  { rewrite lookup_insert_eq, Hm. simpl. by rewrite clone_ranges. }
  split; [by apply not_elem_of_dom|].
  split; [done|].
  split; [by rewrite lookup_insert_ne|].
  intros ops. rewrite mutations_other by done. by rewrite lookup_insert_ne.
Qed.

End copies.

Lemma TodoStore_snapshot_witness :
  pantry_heap !! 1%positive = Some pantry ∧
  ranges [("0", milk); ("1", bread)] pantry ∧
  (refs.TodoStore [("0", milk); ("1", bread)] pantry_heap 1%positive).1
    !! (refs.TodoStore [("0", milk); ("1", bread)] pantry_heap 1%positive).2
    = Some pantry ∧
  foldl (refs.mutate
           (refs.TodoStore [("0", milk); ("1", bread)] pantry_heap 1%positive).2)
    (refs.TodoStore [("0", milk); ("1", bread)] pantry_heap 1%positive).1
    [refs.Delete "0"; refs.Assign "5" stray; refs.Clear] !! 1%positive
    = Some pantry.
Proof.
  assert (pantry_heap !! 1%positive = Some pantry) as H1 by reflexivity.
  split; [exact H1|]. split; [exact ranges_pantry|].
  destruct (TodoStore_snapshot [("0", milk); ("1", bread)] pantry_heap
              1%positive pantry H1 ranges_pantry) as (Ha & _ & _ & _ & Hb).
  split; [exact Ha|]. apply Hb.
Defined.

(* ===================================================================== *)
(** * Loading the store from the data file *)
(* ===================================================================== *)

Section loading.
Import strconv.
Implicit Types (m : gmap string Todo) (rows : list (list string)) (n : Z).

(** A record of at least four columns parses, to the todo that its first
    four columns spell. *)
Lemma parseTodoData_columns (records : list string) :
  (4 ≤ length records)%nat →
  ∃ id title description terminated rest,
    records = id :: title :: description :: terminated :: rest ∧
    parseTodoData records
    = Some (todo_of_columns id title description terminated).
Proof.
  destruct records as [|id [|title [|description [|terminated rest]]]];
    simpl; try lia.
  intros _. by exists id, title, description, terminated, rest.
Qed.

Lemma parseTodoData_is_Some (records : list string) :
  (4 ≤ length records)%nat ↔ is_Some (parseTodoData records).
Proof.
  split.
  - intros H. destruct (parseTodoData_columns records H)
      as (?&?&?&?&?&_&->). by eexists.
  - destruct records as [|id [|title [|description [|terminated rest]]]];
      simpl; try (by intros [? [=]]). lia.
Qed.

(** The loop of [getDataFromFile] on a file of well-formed records. *)
Lemma getDataFromFile_loop_rows rows m n :
  0 ≤ n → dom m = keys_upto n →
  Forall (λ records, (4 ≤ length records)%nat) rows →
  ∃ m', getDataFromFile_loop (csv_of_rows rows) m n = Some (Some m', None) ∧
        dom m' = keys_upto (n + Z.of_nat (length rows)) ∧
        (∀ i : nat, m' !! Itoa (n + Z.of_nat i) = rows !! i ≫= parseTodoData) ∧
        (∀ k, is_Some (m !! k) → m' !! k = m !! k).
Proof.
  intros Hn Hdom Hrows. revert m n Hn Hdom.
  induction Hrows as [|records rows Hrec Hrows IH]; intros m n Hn Hdom.
  - exists m. simpl. rewrite Z.add_0_r. split; [done|]. split; [done|].
    split; [|done].
    intros i. apply eq_None_not_Some.
    rewrite <- elem_of_dom, Hdom, elem_of_keys_upto.
    intros (j & Hj & Heq). apply Itoa_inj in Heq. lia.
  - apply parseTodoData_is_Some in Hrec as [todo Htodo].
    cbn [csv_of_rows getDataFromFile_loop]. rewrite Htodo. simpl.
    destruct (IH (<[Itoa n := todo]> m) (n + 1)) as (m' & Heq & Hdom' & Hl & Hk).
    { lia. }
    { by rewrite dom_insert_L, Hdom, keys_upto_succ. }
    assert (∀ i : nat, n + Z.of_nat (S i) = n + 1 + Z.of_nat i) as Hshift
      by (intros; lia).
    assert (m !! Itoa n = None) as Hfresh.
    { apply not_elem_of_dom. rewrite Hdom. apply Itoa_not_in_keys_upto. }
    exists m'. split; [done|]. split; [by rewrite Hshift|]. split.
    + intros [|i].
      * rewrite Z.add_0_r. simpl. rewrite Htodo.
        rewrite Hk; rewrite lookup_insert_eq; [done|by eexists].
      * rewrite Hshift. apply Hl.
    + intros k Hin.
      assert (k ≠ Itoa n) as Hne by (intros ->; rewrite Hfresh in Hin; by destruct Hin).
      rewrite Hk; rewrite lookup_insert_ne; done.
Qed.

(** C6. With persistence on and a data file that opens, reads and closes
    without error and whose records each have the four columns,
    [Initialize] makes the store the map that holds, for each row i of the
    file in order, counted from 0, the todo parsed from row i under the key
    that is the decimal string of i, and nothing else; what the store held
    before is dropped. The [Id] of each todo is the id column of its row. *)
Theorem Initialize_loads rows (close_ok : bool) :
  Forall (λ records, (4 ≤ length records)%nat) rows → close_ok = true →
  ∃ m,
    (∀ old, Initialize true old (Some (mkFile (csv_of_rows rows) close_ok))
            = Some (Some m)) ∧
    dom m = keys_upto (Z.of_nat (length rows)) ∧
    (∀ i : nat, m !! Itoa (Z.of_nat i) = rows !! i ≫= parseTodoData) ∧
    (∀ (i : nat) todo, m !! Itoa (Z.of_nat i) = Some todo →
       Some (Id todo) = rows !! i ≫= (.!! 0%nat)).
Proof.
  intros Hrows ->.
  destruct (getDataFromFile_loop_rows rows ∅ 0) as (m & Heq & Hdom & Hl & _);
    [done|by rewrite dom_empty_L|done|].
  rewrite Z.add_0_l in Hdom.
  assert (∀ i : nat, m !! Itoa (Z.of_nat i) = rows !! i ≫= parseTodoData) as Hl'.
  { intros i. specialize (Hl i). by rewrite Z.add_0_l in Hl. }
  exists m. split; [|split; [done|split; [done|]]].
  - intros old. unfold Initialize, getDataFromFile. simpl. by rewrite Heq.
  - intros i todo. rewrite Hl'.
    destruct (rows !! i) as [records|] eqn:Hi; simpl; [|done].
    pose proof (proj1 (Forall_lookup _ _) Hrows i records Hi) as Hlen.
    destruct (parseTodoData_columns records Hlen)
      as (id & title & description & terminated & rest & -> & ->).
    by intros [= <-].
Qed.

End loading.

Lemma Initialize_loads_witness :
  Forall (λ records, (4 ≤ length records)%nat) pantry_rows ∧
  ∃ m,
    (∀ old, Initialize true old (Some (mkFile (csv_of_rows pantry_rows) true))
            = Some (Some m)) ∧
    dom m = keys_upto 2 ∧
    (∀ i : nat, m !! strconv.Itoa (Z.of_nat i)
                = pantry_rows !! i ≫= parseTodoData) ∧
    (∀ (i : nat) todo, m !! strconv.Itoa (Z.of_nat i) = Some todo →
       Some (Id todo) = pantry_rows !! i ≫= (.!! 0%nat)).
Proof.
  assert (Forall (λ records, (4 ≤ length records)%nat) pantry_rows) as H.
  { repeat constructor; simpl; lia. }
  split; [exact H|].
  exact (Initialize_loads pantry_rows true H eq_refl).
Defined.

(** On the sample file the load gives the todo of row 1 the key "1" and the
    [Id] "9" of its id column. *)
Example Initialize_pantry_rows :
  Initialize true None (Some (mkFile (csv_of_rows pantry_rows) true))
  = Some (Some {["0" := mkTodo "0" "milk" "two litres" false;
                 "1" := mkTodo "9" "bread" "rye" true]}).
Proof. vm_compute. reflexivity. Qed.

(* ===================================================================== *)
(** * Sorting *)
(* ===================================================================== *)

Section sorting.
Context {A : Type} (key : A → Z).

Local Abbreviation less := (less_by key).
Local Abbreviation le_key := (le_by key).
Local Abbreviation ge_key := (flip (le_by key)).

Lemma insertion_perm (x : A) (prefix : list A) :
  insertion less x prefix ≡ₚ x :: prefix.
Proof.
  induction prefix as [|y prefix IH]; simpl; [done|].
  destruct (less x y); [|done].
  rewrite IH. apply perm_swap.
Qed.

(** The prefix, read from right to left, stays descending. *)
Lemma insertion_sorted (x : A) (prefix : list A) :
  StronglySorted ge_key prefix → StronglySorted ge_key (insertion less x prefix).
Proof.
  induction 1 as [|y prefix Hsorted IH Hy]; simpl.
  - repeat constructor.
  - destruct (less x y) eqn:Hless; unfold less_by in Hless.
    + apply Z.ltb_lt in Hless.
      constructor; [done|].
      rewrite insertion_perm. constructor; [unfold flip, le_by; lia|done].
    + apply Z.ltb_ge in Hless.
      constructor; [by constructor|].
      constructor; [done|].
      eapply Forall_impl; [exact Hy|]. unfold flip, le_by. intros z Hz. lia.
Qed.

Lemma sort_loop_perm (l prefix : list A) :
  foldl (λ prefix a, insertion less a prefix) prefix l ≡ₚ l ++ prefix.
Proof.
  revert prefix. induction l as [|a l IH]; intros prefix; simpl; [done|].
  rewrite IH, insertion_perm. by rewrite Permutation_middle.
Qed.

Lemma sort_loop_sorted (l prefix : list A) :
  StronglySorted ge_key prefix →
  StronglySorted ge_key (foldl (λ prefix a, insertion less a prefix) prefix l).
Proof.
  revert prefix. induction l as [|a l IH]; intros prefix Hp; simpl; [done|].
  by apply IH, insertion_sorted.
Qed.

Lemma StronglySorted_rev_ge (l : list A) :
  StronglySorted ge_key l → StronglySorted le_key (rev l).
Proof.
  induction 1 as [|x l Hsorted IH Hx]; simpl; [constructor|].
  apply StronglySorted_app_2; [|done|repeat constructor].
  intros a b Ha Hb. apply list_elem_of_singleton in Hb as ->.
  apply list_elem_of_In, in_rev, list_elem_of_In in Ha.
  rewrite Forall_forall in Hx. exact (Hx a Ha).
Qed.

Lemma sort_Slice_perm (l : list A) : sort_Slice less l ≡ₚ l.
Proof.
  unfold sort_Slice. rewrite <- Permutation_rev, sort_loop_perm.
  by rewrite app_nil_r.
Qed.

Lemma sort_Slice_sorted (l : list A) :
  StronglySorted le_key (sort_Slice less l).
Proof.
  unfold sort_Slice. apply StronglySorted_rev_ge, sort_loop_sorted. constructor.
Qed.

End sorting.

(* ===================================================================== *)
(** * The handlers *)
(* ===================================================================== *)

Section handlers_facts.
Implicit Types (s : gmap string Todo) (ord : list (string * Todo)).

Lemma sortTodosAfterIdAscending_perm (todos : list Todo) :
  sortTodosAfterIdAscending todos ≡ₚ todos.
Proof. apply (sort_Slice_perm numeric_id). Qed.

Lemma sortTodosAfterIdAscending_sorted (todos : list Todo) :
  ascending_by_id (sortTodosAfterIdAscending todos).
Proof. apply (sort_Slice_sorted numeric_id). Qed.

(** The loop of [TodosGet] collects the todos in the order of the visit. *)
Lemma collect_todos ord s (todos : list Todo) :
  range ord s (λ todos _ todo, (todos ++ [todo])%list) todos
  = (todos ++ ord.*2)%list.
Proof.
  unfold range. revert todos.
  induction ord as [|[k t] ord IH]; intros todos; simpl.
  - by rewrite app_nil_r.
  - by rewrite IH, <- app_assoc.
Qed.

(** The response of [TodosGet]: the todos in the order of the visit,
    sorted. *)
Lemma TodosGet_response s ord_clone ord :
  ranges ord_clone s → ranges ord (TodoStore ord_clone s) →
  TodosGet ord_clone ord s ResponseWriter_new
  = mkResponseWriter json_header (Some 200)
      [JsonDataResponse (sortTodosAfterIdAscending ord.*2)] ∧
  ord.*2 ≡ₚ (map_to_list s).*2.
Proof.
  intros Hclone Hord. split.
  - unfold TodosGet. by rewrite collect_todos.
  - unfold TodoStore in Hord. rewrite clone_ranges in Hord by done.
    unfold ranges in Hord. by rewrite Hord.
Qed.

(** C4. For every content of the store, the response of GET /todos has
    status 200 and carries the todos of the store, each once, sorted
    ascending by the number read in their [Id], whatever the orders in
    which the store and its clone are visited. *)
Theorem TodosGet_sorted s ord_clone ord :
  ranges ord_clone s → ranges ord (TodoStore ord_clone s) →
  ∃ todos,
    TodosGet ord_clone ord s ResponseWriter_new
    = mkResponseWriter json_header (Some 200) [JsonDataResponse todos] ∧
    todos ≡ₚ (map_to_list s).*2 ∧
    ascending_by_id todos.
Proof.
  intros Hclone Hord.
  destruct (TodosGet_response s ord_clone ord Hclone Hord) as [Heq Hperm].
  exists (sortTodosAfterIdAscending ord.*2).
  split; [done|]. split.
  - by rewrite sortTodosAfterIdAscending_perm.
  - apply sortTodosAfterIdAscending_sorted.
Qed.

Section put.
Variable json_Decode : string → Todo → option Todo.

(** C8. PUT /todos/:id answers 404 when the id is unknown, whatever the
    body (the store is looked up before the body is decoded); 400 when the
    id is known and the body is nil or fails to decode; otherwise 200 with
    the updated record, which is the one the store then holds at the id. *)
Theorem TodoPut_status ord_clone ord_save (filePersistence : bool) s
    (dataFile : list (list string)) (request : Request)
    (params : list (string * string)) :
  ranges ord_clone s →
  (s !! ByName params "id" = None →
   TodoPut json_Decode ord_clone ord_save filePersistence s dataFile
     ResponseWriter_new request params
   = (s, dataFile,
      mkResponseWriter json_header (Some 404)
        [JsonErrorResponse (mkApiError 404 "Record Not Found")])) ∧
  (is_Some (s !! ByName params "id") →
   decodeTodo json_Decode request Todo_zero = None →
   TodoPut json_Decode ord_clone ord_save filePersistence s dataFile
     ResponseWriter_new request params
   = (s, dataFile,
      mkResponseWriter json_header (Some 400)
        [JsonErrorResponse (mkApiError 400 "Invalid Body")])) ∧
  (∀ todo, is_Some (s !! ByName params "id") →
   decodeTodo json_Decode request Todo_zero = Some todo →
   (TodoPut json_Decode ord_clone ord_save filePersistence s dataFile
      ResponseWriter_new request params).2
   = mkResponseWriter json_header (Some 200)
       [JsonExtendedResponse (set_Id (ByName params "id") todo)] ∧
   (TodoPut json_Decode ord_clone ord_save filePersistence s dataFile
      ResponseWriter_new request params).1.1
   = <[ByName params "id" := set_Id (ByName params "id") todo]> s).
Proof.
  intros Hclone. unfold TodoPut, TodoStore.
  rewrite clone_ranges by done.
  split; [|split].
  - intros ->. done.
  - intros [old ->] ->. done.
  - intros todo [old Hid] ->. rewrite Hid.
    unfold UpdateTodo. rewrite Hid, UpdateTodo_forced. done.
Qed.

End put.
End handlers_facts.

(* ===================================================================== *)
(** * The listing of a numbered store *)
(* ===================================================================== *)

Section key_order.
Import strconv.
Implicit Types (s : gmap string Todo) (n : Z).

Lemma numbered_entries s n :
  numbered s n →
  map_to_list s ≡ₚ (λ i, (Itoa i, s !!! Itoa i)) <$> seqZ 0 n.
Proof.
  intros Hs. apply NoDup_Permutation.
  - apply NoDup_map_to_list.
  - apply (NoDup_fmap_1 fst). rewrite <- list_fmap_compose.
    change (NoDup (Itoa <$> seqZ 0 n)).
    apply NoDup_fmap_2; [apply _|apply NoDup_seqZ].
  - intros [k t]. rewrite elem_of_map_to_list, list_elem_of_fmap. split.
    + intros Hk.
      destruct (proj1 (numbered_lookup s n k Hs) (mk_is_Some _ _ Hk))
        as (i & Hi & ->).
      exists i. split; [|apply elem_of_seqZ; lia].
      by rewrite (lookup_total_correct _ _ _ Hk).
    + intros (i & [= -> ->] & Hi). apply elem_of_seqZ in Hi.
      apply lookup_lookup_total, (numbered_lookup s n _ Hs).
      exists i. split; [lia|done].
Qed.

Lemma numeric_id_entry s n i :
  numbered s n → n ≤ 2 ^ 63 → 0 ≤ i < n →
  numeric_id (s !!! Itoa i) = i.
Proof.
  intros Hs Hn Hi.
  assert (s !! Itoa i = Some (s !!! Itoa i)) as Hlook.
  { apply lookup_lookup_total, (numbered_lookup s n _ Hs). by exists i. }
  destruct Hs as (_ & _ & Hids).
  unfold numeric_id. rewrite (Hids _ _ Hlook), Atoi_Itoa; [done|lia].
Qed.

(** A list whose elements have the keys lo, lo + 1, ... is sorted by key. *)
Lemma seqZ_sorted_by {A} (key : A → Z) (f : Z → A) (len : nat) (lo : Z) :
  (∀ i, lo ≤ i < lo + Z.of_nat len → key (f i) = i) →
  StronglySorted (le_by key) (f <$> seqZ lo (Z.of_nat len)).
Proof.
  revert lo. induction len as [|len IH]; intros lo Hkey.
  - rewrite seqZ_nil by done. constructor.
  - rewrite seqZ_cons by lia.
    replace (Z.pred (Z.of_nat (S len))) with (Z.of_nat len) by lia.
    rewrite fmap_cons. constructor.
    + apply IH. intros i Hi. apply Hkey. lia.
    + apply Forall_fmap, Forall_forall. intros i Hi.
      apply elem_of_seqZ in Hi. unfold le_by. simpl.
      rewrite !Hkey by lia. lia.
Qed.

Lemma in_key_order_sorted s n :
  numbered s n → n ≤ 2 ^ 63 → ascending_by_id (in_key_order s n).
Proof.
  intros Hs Hn. unfold ascending_by_id, in_key_order.
  pose proof Hs as (H0 & _).
  rewrite <- (Z2Nat.id n) by done.
  apply (seqZ_sorted_by numeric_id (λ i, s !!! Itoa i)).
  intros i Hi. apply (numeric_id_entry s n); [done|done|lia].
Qed.

Lemma in_key_order_perm s n :
  numbered s n → (map_to_list s).*2 ≡ₚ in_key_order s n.
Proof.
  intros Hs. rewrite (numbered_entries s n Hs).
  unfold in_key_order. by rewrite <- list_fmap_compose.
Qed.

(** X21. For a store as the operations build it (keys "0" .. "n-1", each
    todo carrying its key, n within the range of an [int]), GET /todos
    lists the todo of key "0", then the one of key "1", and so on, whatever
    the orders in which the store and its clone are visited. *)
Theorem TodosGet_in_key_order s n ord_clone ord :
  numbered s n → n ≤ 2 ^ 63 →
  ranges ord_clone s → ranges ord (TodoStore ord_clone s) →
  TodosGet ord_clone ord s ResponseWriter_new
  = mkResponseWriter json_header (Some 200)
      [JsonDataResponse (in_key_order s n)].
Proof.
  intros Hs Hn Hclone Hord.
  destruct (TodosGet_response s ord_clone ord Hclone Hord) as [-> Hperm].
  pose proof (sortTodosAfterIdAscending_sorted ord.*2) as Hsorted.
  rewrite <- (sortTodosAfterIdAscending_perm ord.*2) in Hperm.
  do 3 f_equal.
  rewrite (in_key_order_perm s n Hs) in Hperm.
  apply (StronglySorted_unique_strong (le_by numeric_id));
    [|done|by apply in_key_order_sorted|done].
  intros x1 x2 Hx1 Hx2 H12 H21.
  rewrite Hperm in Hx1. unfold in_key_order in Hx1, Hx2.
  apply list_elem_of_fmap in Hx1 as (i1 & -> & Hi1).
  apply list_elem_of_fmap in Hx2 as (i2 & -> & Hi2).
  apply elem_of_seqZ in Hi1, Hi2. unfold le_by in H12, H21.
  rewrite !(numeric_id_entry s n) in H12, H21 by (done || lia).
  by replace i1 with i2 by lia.
Qed.
End key_order.

(* ===================================================================== *)
(** * The handlers on the sample store *)
(* ===================================================================== *)

Lemma ranges_clone_pantry :
  ranges [("1", bread); ("0", milk)]
    (TodoStore [("0", milk); ("1", bread)] pantry).
Proof. unfold ranges. vm_compute. reflexivity. Qed.

Lemma TodosGet_sorted_witness :
  ranges [("0", milk); ("1", bread)] pantry ∧
  ranges [("1", bread); ("0", milk)]
    (TodoStore [("0", milk); ("1", bread)] pantry) ∧
  ∃ todos,
    TodosGet [("0", milk); ("1", bread)] [("1", bread); ("0", milk)] pantry
      ResponseWriter_new
    = mkResponseWriter json_header (Some 200) [JsonDataResponse todos] ∧
    todos ≡ₚ (map_to_list pantry).*2 ∧
    ascending_by_id todos.
Proof.
  split; [exact ranges_pantry|]. split; [exact ranges_clone_pantry|].
  exact (TodosGet_sorted pantry _ _ ranges_pantry ranges_clone_pantry).
Defined.

(** On the sample store the list comes out as milk, bread although the loop
    visits bread first. *)
Example TodosGet_pantry :
  body (TodosGet [("0", milk); ("1", bread)] [("1", bread); ("0", milk)] pantry
          ResponseWriter_new)
  = [JsonDataResponse [milk; bread]].
Proof. vm_compute. reflexivity. Qed.

Lemma TodoPut_status_witness :
  ranges [("0", milk); ("1", bread)] pantry ∧
  is_Some (pantry !! ByName put_params "id") ∧
  decodeTodo sample_Decode put_request Todo_zero
  = Some (mkTodo EmptyString "stamps" EmptyString false) ∧
  (TodoPut sample_Decode [("0", milk); ("1", bread)] [] false pantry []
     ResponseWriter_new put_request put_params).2
  = mkResponseWriter json_header (Some 200)
      [JsonExtendedResponse
         (set_Id (ByName put_params "id")
            (mkTodo EmptyString "stamps" EmptyString false))] ∧
  (TodoPut sample_Decode [("0", milk); ("1", bread)] [] false pantry []
     ResponseWriter_new put_request put_params).1.1
  = <[ByName put_params "id" :=
        set_Id (ByName put_params "id")
          (mkTodo EmptyString "stamps" EmptyString false)]> pantry.
Proof.
  assert (is_Some (pantry !! ByName put_params "id")) as Hid by (by eexists).
  assert (decodeTodo sample_Decode put_request Todo_zero
          = Some (mkTodo EmptyString "stamps" EmptyString false)) as Hdec
    by reflexivity.
  split; [exact ranges_pantry|]. split; [exact Hid|]. split; [exact Hdec|].
  exact (proj2 (proj2 (TodoPut_status sample_Decode [("0", milk); ("1", bread)]
                         [] false pantry [] put_request put_params
                         ranges_pantry)) _ Hid Hdec).
Defined.

(** An unknown id is answered 404 although the body would not decode. *)
Example TodoPut_unknown_id_bad_body :
  (TodoPut sample_Decode [("0", milk); ("1", bread)] [] false pantry []
     ResponseWriter_new (mkRequest (Some "garbage")) [("id", "5")]).2
  = mkResponseWriter json_header (Some 404)
      [JsonErrorResponse (mkApiError 404 "Record Not Found")].
Proof. vm_compute. reflexivity. Qed.

(** A known id with a nil body is answered 400. *)
Example TodoPut_known_id_nil_body :
  (TodoPut sample_Decode [("0", milk); ("1", bread)] [] false pantry []
     ResponseWriter_new (mkRequest None) [("id", "1")]).2
  = mkResponseWriter json_header (Some 400)
      [JsonErrorResponse (mkApiError 400 "Invalid Body")].
Proof. vm_compute. reflexivity. Qed.

(* ===================================================================== *)
(** * The CSV record of a todo *)
(* ===================================================================== *)

Lemma ToBool_FormatBool (b : bool) : ToBool (strconv.FormatBool b) = b.
Proof. by destruct b. Qed.

(** C3. For every todo [t], parsing the CSV record that [t.Serialize()]
    produces gives [t] back: [parseTodoData (Serialize t)] returns (it does
    not panic) and its result is [t]. *)
Theorem parseTodoData_Serialize (t : Todo) :
  parseTodoData (Serialize t) = Some t.
Proof.
  destruct t as [id title description terminated].
  unfold Serialize, parseTodoData. simpl.
  by rewrite ToBool_FormatBool.
Qed.

(** The order is that of the numbers, not of the strings: "9" comes before
    "10". *)
Example sortTodosAfterIdAscending_numeric :
  Id <$> sortTodosAfterIdAscending
           [mkTodo "10" "j" "j" false; mkTodo "9" "i" "i" false;
            mkTodo "2" "b" "b" false]
  = ["2"; "9"; "10"].
Proof. vm_compute. reflexivity. Qed.

(* ===================================================================== *)
(** * More on the store operations *)
(* ===================================================================== *)

Section store_more.
Import strconv.
Implicit Types (m s : gmap string Todo) (n : Z) (k id : string) (t : Todo).
Implicit Types (ord : list (string * Todo)).

Lemma contiguous_lookup s k :
  contiguous s → is_Some (s !! k) ↔ ∃ i, 0 ≤ i < len s ∧ k = Itoa i.
Proof.
  unfold contiguous. intros Hdom.
  by rewrite <- elem_of_dom, Hdom, elem_of_keys_upto.
Qed.

Lemma contiguous_intro s n : 0 ≤ n → dom s = keys_upto n → contiguous s.
Proof.
  intros Hn Hdom. unfold contiguous, len.
  rewrite <- size_dom, Hdom, size_keys_upto by done.
  by rewrite Z2Nat.id.
Qed.

(** X1. On a store whose keys are "0" .. "n-1", whatever the [Id]s of its
    todos, [AddTodo] overwrites nothing: the key it assigns is free, the
    store grows by one entry, every other entry stays, the keys stay
    contiguous, and the todo returned is the one stored. *)
Theorem AddTodo_contiguous s t :
  contiguous s →
  size (AddTodo s t).1 = S (size s) ∧
  contiguous (AddTodo s t).1 ∧
  (AddTodo s t).1 !! Itoa (len s) = Some (AddTodo s t).2 ∧
  s !! Itoa (len s) = None ∧
  ∀ k, k ≠ Itoa (len s) → (AddTodo s t).1 !! k = s !! k.
Proof.
  intros Hc. unfold AddTodo. cbn [fst snd].
  assert (s !! Itoa (len s) = None) as Hfresh.
  { apply not_elem_of_dom. rewrite Hc. apply Itoa_not_in_keys_upto. }
  split; [by apply map_size_insert_None|].
  split.
  { apply (contiguous_intro _ (len s + 1)); [unfold len; lia|].
    rewrite dom_insert_L, Hc, keys_upto_succ; [done|unfold len; lia]. }
  split; [apply lookup_insert_eq|]. split; [done|].
  intros k Hk. by apply lookup_insert_ne.
Qed.

Lemma AddTodo_contiguous_witness :
  contiguous shuffled ∧
  size (AddTodo shuffled stray).1 = S (size shuffled) ∧
  contiguous (AddTodo shuffled stray).1 ∧
  (AddTodo shuffled stray).1 !! Itoa (len shuffled)
    = Some (AddTodo shuffled stray).2 ∧
  shuffled !! Itoa (len shuffled) = None ∧
  ∀ k, k ≠ Itoa (len shuffled) → (AddTodo shuffled stray).1 !! k = shuffled !! k.
Proof.
  assert (contiguous shuffled) as H by (vm_compute; reflexivity).
  split; [exact H|]. exact (AddTodo_contiguous shuffled stray H).
Defined.

(** The loop of [RemoveTodo] puts the i-th entry it keeps under the next
    free index. *)
Lemma RemoveTodo_loop_ranks id ord s m n :
  numbered m n →
  ∃ m', range ord s (RemoveTodo_body id) (m, n)
        = (m', n + Z.of_nat (length (kept id ord))) ∧
    dom m' = keys_upto (n + Z.of_nat (length (kept id ord))) ∧
    (∀ i : nat, m' !! Itoa (n + Z.of_nat i)
       = set_Id (Itoa (n + Z.of_nat i)) <$> (kept id ord).*2 !! i) ∧
    (∀ k, is_Some (m !! k) → m' !! k = m !! k).
Proof.
  unfold range, kept. revert m n.
  induction ord as [|[k t] ord IH]; intros m n Hm; simpl.
  - exists m. rewrite Z.add_0_r. split; [done|].
    split; [by destruct Hm as (_ & ? & _)|]. split; [|done].
    intros i. apply eq_None_not_Some. rewrite (numbered_lookup _ _ _ Hm).
    intros (j & Hj & Heq). apply Itoa_inj in Heq. lia.
  - rewrite filter_cons. simpl. case_bool_decide as Hk.
    + rewrite decide_True by done.
      pose proof (numbered_insert _ _ t Hm) as Hm1.
      destruct (IH _ _ Hm1) as (m' & Heq & Hdom & Hl & Hkeep).
      assert (∀ c : nat, n + Z.of_nat (S c) = n + 1 + Z.of_nat c) as Hshift
        by (intros; lia).
      assert (m !! Itoa n = None) as Hfresh.
      { apply eq_None_not_Some. rewrite (numbered_lookup _ _ _ Hm).
        intros (j & Hj & Heq'). apply Itoa_inj in Heq'. lia. }
      exists m'. cbn [length fmap list_fmap]. rewrite Hshift.
      split; [done|]. split; [done|]. split.
      * intros [|i].
        -- rewrite Z.add_0_r. simpl.
           rewrite Hkeep; rewrite lookup_insert_eq; [done|by eexists].
        -- rewrite Hshift. apply Hl.
      * intros k' Hk'.
        assert (k' ≠ Itoa n) as Hne
          by (intros ->; rewrite Hfresh in Hk'; by destruct Hk').
        rewrite Hkeep; rewrite lookup_insert_ne; done.
    + rewrite decide_False by (intros Hne; by apply Hne). by apply IH.
Qed.

(** X2. Whatever the store holds, when [id] is a key of it [RemoveTodo id]
    leaves the store that holds, under the decimal string of i and with
    that string as [Id], the i-th todo among those the loop visits whose
    [Id] differs from [id], title, description and flag untouched, and
    nothing else. *)
Theorem RemoveTodo_ranks ord s id :
  is_Some (s !! id) →
  (RemoveTodo ord s id).2 = true ∧
  dom (RemoveTodo ord s id).1 = keys_upto (Z.of_nat (length (kept id ord))) ∧
  ∀ i : nat, (RemoveTodo ord s id).1 !! Itoa (Z.of_nat i)
    = set_Id (Itoa (Z.of_nat i)) <$> (kept id ord).*2 !! i.
Proof.
  intros [old Hid]. unfold RemoveTodo. rewrite Hid.
  destruct (RemoveTodo_loop_ranks id ord s ∅ 0 numbered_empty)
    as (m' & Heq & Hdom & Hl & _).
  rewrite Heq. cbn [fst snd]. rewrite Z.add_0_l in Hdom.
  split; [done|]. split; [done|].
  intros i. specialize (Hl i). by rewrite Z.add_0_l in Hl.
Qed.

Lemma RemoveTodo_ranks_witness :
  is_Some (loaded_stray !! "0") ∧
  (RemoveTodo [("0", stray)] loaded_stray "0").2 = true ∧
  dom (RemoveTodo [("0", stray)] loaded_stray "0").1
    = keys_upto (Z.of_nat (length (kept "0" [("0", stray)]))) ∧
  ∀ i : nat, (RemoveTodo [("0", stray)] loaded_stray "0").1 !! Itoa (Z.of_nat i)
    = set_Id (Itoa (Z.of_nat i)) <$> (kept "0" [("0", stray)]).*2 !! i.
Proof.
  assert (is_Some (loaded_stray !! "0")) as H by (by eexists).
  split; [exact H|]. exact (RemoveTodo_ranks [("0", stray)] loaded_stray "0" H).
Defined.

End store_more.

Section store_compose.
Import strconv.
Implicit Types (m s : gmap string Todo) (n : Z) (k id : string) (t : Todo).
Implicit Types (ord : list (string * Todo)).

(** In a store whose todos carry their keys, the entries that the loop of
    [RemoveTodo id] keeps are the entries of the store without [id]. *)
Lemma kept_delete ord s id old :
  ranges ord s → ids_are_keys s → s !! id = Some old →
  kept id ord ≡ₚ map_to_list (delete id s).
Proof.
  intros Hord Hids Hid. unfold ranges in Hord. unfold kept.
  rewrite Hord, <- (map_to_list_delete s id old Hid).
  rewrite filter_cons_False.
  2:{ simpl. intros Hne. apply Hne. symmetry. exact (Hids id old Hid). }
  rewrite filter_Forall_id; [done|].
  apply Forall_forall. intros [k t] Hkt. simpl.
  apply elem_of_map_to_list in Hkt.
  apply lookup_delete_Some in Hkt as [Hne Hk].
  rewrite (Hids k t Hk). done.
Qed.

(** The todos of the store that [RemoveTodo] leaves, in key order, say what
    the kept todos say, in the order of the visit. *)
Lemma RemoveTodo_content_in_order ord s id :
  is_Some (s !! id) →
  content <$> in_key_order (RemoveTodo ord s id).1
                (Z.of_nat (length (kept id ord)))
  = content <$> (kept id ord).*2.
Proof.
  intros [old Hid]. unfold RemoveTodo. rewrite Hid.
  destruct (RemoveTodo_loop_ranks id ord s ∅ 0 numbered_empty)
    as (m' & Heq & Hdom & Hl & _).
  rewrite Heq. cbn [fst snd]. unfold in_key_order.
  apply list_eq. intros i. rewrite !list_lookup_fmap.
  destruct (decide (i < length (kept id ord))%nat) as [Hlt|Hge].
  - rewrite (lookup_seqZ_lt 0 _ i) by lia. simpl. rewrite Z.add_0_l.
    specialize (Hl i). rewrite Z.add_0_l in Hl.
    destruct (lookup_lt_is_Some_2 (kept id ord).*2 i) as [t Ht];
      [by rewrite length_fmap|].
    rewrite list_lookup_fmap in Ht. rewrite list_lookup_fmap, Ht in Hl.
    rewrite Ht. simpl in *.
    by rewrite (lookup_total_correct _ _ _ Hl).
  - rewrite (lookup_seqZ_ge 0 _ i) by lia. simpl.
    rewrite lookup_ge_None_2; [done|]. lia.
Qed.

(** X3. In a store whose todos carry their keys, [RemoveTodo id] with [id]
    present changes no title, description or flag and loses no todo but
    the one under [id]: what the todos of the resulting store say is, up to
    order, what the todos of the store other than that one said. *)
Theorem RemoveTodo_keeps_content ord s id :
  ranges ord s → ids_are_keys s → is_Some (s !! id) →
  content <$> (map_to_list (RemoveTodo ord s id).1).*2
  ≡ₚ content <$> (map_to_list (delete id s)).*2.
Proof.
  intros Hord Hids Hid.
  destruct (RemoveTodo_numbered ord s id Hid) as (n & Hnum & _ & ->).
  rewrite (in_key_order_perm _ _ Hnum).
  change (filter (λ kv : string * Todo, id ≠ Id kv.2) ord) with (kept id ord).
  rewrite (RemoveTodo_content_in_order ord s id Hid).
  destruct Hid as [old Hid].
  by rewrite (kept_delete ord s id old Hord Hids Hid).
Qed.

Lemma RemoveTodo_keeps_content_witness :
  ranges [("0", milk); ("1", bread)] pantry ∧
  ids_are_keys pantry ∧
  is_Some (pantry !! "0") ∧
  content <$> (map_to_list (RemoveTodo [("0", milk); ("1", bread)] pantry "0").1).*2
  ≡ₚ content <$> (map_to_list (delete "0" pantry)).*2.
Proof.
  assert (is_Some (pantry !! "0")) as H by (by eexists).
  split; [exact ranges_pantry|]. split; [exact ids_are_keys_pantry|].
  split; [exact H|].
  exact (RemoveTodo_keeps_content _ pantry "0" ranges_pantry
           ids_are_keys_pantry H).
Defined.

(** X4. Updates compose as assignments do: of two updates at one id the
    second decides the stored todo; updates at different ids commute; and
    no update, successful or not, changes the set of keys. *)
Theorem UpdateTodo_compose s id1 id2 t1 t2 :
  (UpdateTodo (UpdateTodo s id1 t1).1 id1 t2).1 = (UpdateTodo s id1 t2).1 ∧
  (id1 ≠ id2 →
   (UpdateTodo (UpdateTodo s id1 t1).1 id2 t2).1
   = (UpdateTodo (UpdateTodo s id2 t2).1 id1 t1).1) ∧
  dom (UpdateTodo s id1 t1).1 = dom s.
Proof.
  assert (∀ id t, (UpdateTodo s id t).1
                  = match s !! id with
                    | Some _ => <[id := set_Id id t]> s
                    | None => s
                    end) as Hone.
  { intros id t. unfold UpdateTodo.
    destruct (s !! id); [|done]. by rewrite UpdateTodo_forced. }
  split; [|split].
  - rewrite (Hone id1 t1), (Hone id1 t2).
    destruct (s !! id1) as [old|] eqn:Hid.
    + unfold UpdateTodo. rewrite lookup_insert_eq, UpdateTodo_forced.
      cbn [fst]. by rewrite insert_insert_eq.
    + unfold UpdateTodo. by rewrite Hid.
  - intros Hne. rewrite (Hone id1 t1), (Hone id2 t2).
    unfold UpdateTodo.
    destruct (s !! id1) as [old1|] eqn:Hid1;
      destruct (s !! id2) as [old2|] eqn:Hid2;
      rewrite ?lookup_insert_ne by done;
      rewrite ?Hid1, ?Hid2, ?UpdateTodo_forced; cbn [fst]; try done.
    by apply insert_insert_ne.
  - rewrite (Hone id1 t1). destruct (s !! id1) as [old|] eqn:Hid; [|done].
    rewrite dom_insert_L. apply elem_of_dom_2 in Hid. apply set_eq. intros k.
    rewrite elem_of_union, elem_of_singleton.
    split; [by intros [->|?]|by right].
Qed.

Lemma UpdateTodo_compose_witness :
  "0" ≠ "1" ∧
  (UpdateTodo (UpdateTodo pantry "0" stray).1 "1" stray).1
  = (UpdateTodo (UpdateTodo pantry "1" stray).1 "0" stray).1.
Proof.
  assert ("0" ≠ "1") as H by discriminate.
  split; [exact H|].
  exact (proj1 (proj2 (UpdateTodo_compose pantry "0" "1" stray stray)) H).
Defined.

End store_compose.

(* ===================================================================== *)
(** * The tests of package [models] *)
(* ===================================================================== *)

Section tests.
Import strconv models_test.

Lemma areStringSlicesEqual_loop_spec (a b pre rest : list string) :
  b = (pre ++ rest)%list → length a = length rest →
  areStringSlicesEqual_loop (length pre) a b = Some (bool_decide (a = rest)).
Proof.
  revert pre rest. induction a as [|v a IH]; intros pre rest -> Hlen.
  - destruct rest; [|done]. cbn [areStringSlicesEqual_loop].
    by rewrite bool_decide_true.
  - destruct rest as [|w rest]; [done|]. simpl in Hlen.
    cbn [areStringSlicesEqual_loop].
    rewrite lookup_app_r, Nat.sub_diag by done. cbn [lookup list_lookup mbind option_bind].
    case_bool_decide as Hvw.
    + rewrite bool_decide_false; [done|]. by intros [= ? ?].
    + subst w.
      replace (S (length pre)) with (length (pre ++ [v])%list)
        by (rewrite length_app; simpl; lia).
      rewrite (IH (pre ++ [v])%list rest); [|by rewrite <- app_assoc|lia].
      f_equal. apply bool_decide_ext. split; [by intros ->|by intros [= ->]].
Qed.

(** X5. [areStringSlicesEqual a b] never indexes [b] out of range and
    answers whether the two slices are equal, element by element and in
    order. *)
Theorem areStringSlicesEqual_spec (a b : list string) :
  areStringSlicesEqual a b = Some (bool_decide (a = b)).
Proof.
  unfold areStringSlicesEqual. case_bool_decide as Hlen.
  - rewrite bool_decide_false; [done|]. by intros ->.
  - apply (areStringSlicesEqual_loop_spec a b [] b);
      [done|first [done|by apply dec_stable]].
Qed.

(** X6. The assertion of [TestTodo_AddTodo] holds exactly when the store is
    empty at the time the test calls [AddTodo]: on any other store the todo
    returned carries another id than the "0" expected. *)
Theorem TestTodo_AddTodo_passes (todoStore : gmap string Todo) :
  TestTodo_AddTodo todoStore = true ↔ todoStore = ∅.
Proof.
  unfold TestTodo_AddTodo, AddTodo. cbn [snd].
  rewrite negb_true_iff, bool_decide_eq_false. split.
  - intros Heq. apply dec_stable in Heq. injection Heq as Hid.
    change "0" with (Itoa 0) in Hid. apply Itoa_inj in Hid.
    apply map_size_empty_iff. unfold len in Hid. lia.
  - intros ->. by intros H; apply H.
Qed.

End tests.

(* ===================================================================== *)
(** * More on loading and saving *)
(* ===================================================================== *)

Section loading_more.
Import strconv.
Implicit Types (m s : gmap string Todo) (n : Z) (r : CsvStream).
Implicit Types (ord : list (string * Todo)) (file : option File).

Lemma short_iff (records : list string) :
  short records ↔ parseTodoData records = None.
Proof.
  unfold short. rewrite eq_None_not_Some, <- parseTodoData_is_Some. lia.
Qed.

(** The loop panics exactly when it meets a short record. *)
Lemma getDataFromFile_loop_panics r m n :
  getDataFromFile_loop r m n = None ↔ Exists short (records_of r).
Proof.
  revert m n. induction r as [| |records rest IH]; intros m n; simpl.
  - split; [done|]. by intros ?%Exists_nil.
  - split; [done|]. by intros ?%Exists_nil.
  - rewrite Exists_cons, short_iff.
    destruct (parseTodoData records) as [todo|]; simpl.
    + rewrite IH. split; [by right|]. by intros [?|?].
    + split; [by left|done].
Qed.

(** A reader that ends with an error makes the loop return it, unless the
    loop panics first. *)
Lemma getDataFromFile_loop_error r m n :
  ends_in_error r = true → ¬ Exists short (records_of r) →
  getDataFromFile_loop r m n = Some (None, Some ErrRead).
Proof.
  revert m n. induction r as [| |records rest IH]; intros m n; simpl;
    [done|done|].
  intros Herr Hshort. rewrite Exists_cons in Hshort.
  destruct (parseTodoData records) as [todo|] eqn:Hp; simpl.
  - apply IH; [done|]. intros ?. apply Hshort. by right.
  - exfalso. apply Hshort. left. by apply short_iff.
Qed.

Lemma csv_of_rows_records_of r :
  ends_in_error r = false → r = csv_of_rows (records_of r).
Proof.
  induction r as [| |records rest IH]; simpl; [done|done|].
  intros H. by rewrite <- IH.
Qed.

Lemma not_short_Forall (rows : list (list string)) :
  ¬ Exists short rows ↔ Forall (λ records, (4 ≤ length records)%nat) rows.
Proof.
  rewrite <- Forall_Exists_neg. apply Forall_proper; [|done].
  intros records. unfold short. lia.
Qed.

(** The three outcomes of [getDataFromFile]. *)
Lemma getDataFromFile_outcome file :
  (load_panics file ∧ getDataFromFile file = None) ∨
  (load_fails file ∧ ∃ e, getDataFromFile file = Some (None, Some e)) ∨
  (∃ f rows m, file = Some f ∧ file_csv f = csv_of_rows rows ∧
     Forall (λ records, (4 ≤ length records)%nat) rows ∧
     getDataFromFile file = Some (Some m, None) ∧
     dom m = keys_upto (Z.of_nat (length rows)) ∧
     ∀ i : nat, m !! Itoa (Z.of_nat i) = rows !! i ≫= parseTodoData).
Proof.
  destruct file as [[r close_ok]|]; simpl.
  2:{ right. left. split; [done|]. by eexists. }
  destruct (decide (Exists short (records_of r))) as [Hshort|Hok].
  { left. split; [done|].
    by rewrite (proj2 (getDataFromFile_loop_panics r ∅ 0) Hshort). }
  right. pose proof (proj1 (not_short_Forall _) Hok) as Hall.
  destruct (ends_in_error r) eqn:Herr.
  { left. split; [split; [done|by left]|].
    rewrite (getDataFromFile_loop_error r ∅ 0 Herr Hok). simpl. by eexists. }
  destruct (getDataFromFile_loop_rows (records_of r) ∅ 0)
    as (m & Heq & Hdom & Hl & _); [done|by rewrite dom_empty_L|done|].
  rewrite <- (csv_of_rows_records_of r Herr) in Heq. rewrite Heq. simpl.
  destruct close_ok.
  - right. exists (mkFile r true), (records_of r), m.
    split; [done|]. split; [by apply csv_of_rows_records_of|].
    split; [done|]. split; [done|].
    rewrite Z.add_0_l in Hdom. split; [done|].
    intros i. specialize (Hl i). by rewrite Z.add_0_l in Hl.
  - left. split; [split; [done|by right]|]. by eexists.
Qed.

Lemma load_fails_not_panics file : load_fails file → ¬ load_panics file.
Proof.
  unfold load_fails, load_panics. destruct file as [f|]; [|tauto].
  intros [Hall _]. by apply not_short_Forall.
Qed.

(** X7. With persistence on, [Initialize] panics exactly when some record
    that the reader hands out before the end of the file or its first
    error has fewer than four columns; with persistence off it never
    panics and leaves the store as it is, whatever the file. *)
Theorem Initialize_panics file (old : option (gmap string Todo)) :
  (Initialize true old file = None ↔ load_panics file) ∧
  Initialize false old file = Some old.
Proof.
  split; [|done]. unfold Initialize.
  destruct (getDataFromFile_outcome file)
    as [[Hp ->]|[[Hf [e ->]]|(f & rows & m & -> & Hcsv & Hall & -> & _)]];
    simpl.
  - done.
  - split; [done|]. intros Hp. by apply load_fails_not_panics in Hf.
  - split; [done|]. rewrite Hcsv. intros Hp. exfalso.
    revert Hp. apply not_short_Forall.
    clear -Hall. induction Hall; simpl; by constructor.
Qed.

End loading_more.

Section startup_facts.
Import strconv.
Implicit Types (m s : gmap string Todo) (file : option File).
Implicit Types (ord : list (string * Todo)).

(** With persistence on, the store after [Initialize] is nil exactly when
    the load reports an error. *)
Lemma Initialize_nil file (old : option (gmap string Todo)) :
  Initialize true old file = Some None ↔ load_fails file.
Proof.
  unfold Initialize.
  destruct (getDataFromFile_outcome file)
    as [[Hp ->]|[[Hf [e ->]]|(f & rows & m & -> & Hcsv & Hall & Hget & _)]].
  - simpl. split; [done|]. intros Hf. by apply load_fails_not_panics in Hf.
  - done.
  - rewrite Hget. simpl. split; [done|].
    rewrite Hcsv. intros [_ [Herr|Hclose]]; exfalso.
    + clear -Herr. induction rows; simpl in *; [done|auto].
    + unfold getDataFromFile in Hget. rewrite Hclose in Hget.
      destruct (getDataFromFile_loop (file_csv f) ∅ 0)
        as [[[?|] [?|]]|]; simpl in Hget; done.
Qed.

(** On a store that is not nil the operations of [nilmap] are those of the
    store. *)
Lemma nilmap_agrees s t id ord :
  nilmap.AddTodo (Some s) t
    = Some (Some (AddTodo s t).1, (AddTodo s t).2) ∧
  nilmap.UpdateTodo (Some s) id t
    = (Some (UpdateTodo s id t).1, (UpdateTodo s id t).2) ∧
  nilmap.RemoveTodo ord (Some s) id
    = (Some (RemoveTodo ord s id).1, (RemoveTodo ord s id).2).
Proof.
  unfold nilmap.AddTodo, nilmap.UpdateTodo, nilmap.RemoveTodo,
    AddTodo, UpdateTodo, RemoveTodo, nilmap.len. simpl.
  split; [done|]. split.
  - by destruct (s !! id).
  - destruct (s !! id); [|done].
    by destruct (range ord s (RemoveTodo_body id) (∅, 0)).
Qed.

(** X8. [Run(true)] leaves the nil map in [todoStore], whatever the store
    held, exactly when the load reports an error (the file does not open,
    or the reader or [Close] fails); on that store [AddTodo] panics, while
    [UpdateTodo] and [RemoveTodo] report every id as absent and leave the
    store nil. *)
Theorem Run_load_error file (fp : bool) (old : option (gmap string Todo)) :
  (startup.Run true fp old file = Some (true, None) ↔ load_fails file) ∧
  (∀ t, nilmap.AddTodo None t = None) ∧
  (∀ id t, nilmap.UpdateTodo None id t = (None, (Todo_zero, false))) ∧
  (∀ ord id, nilmap.RemoveTodo ord None id = (None, false)).
Proof.
  split; [|done].
  rewrite <- (Initialize_nil file old).
  unfold startup.Run, startup.EnableFilePersistence. cbv beta iota zeta.
  destruct (Initialize true old file) as [[?|]|]; cbn;
    (split; intros H; first [done|discriminate H]).
Qed.

Lemma Run_load_error_witness :
  load_fails (Some broken_file) ∧
  startup.Run true false (Some pantry) (Some broken_file) = Some (true, None).
Proof.
  assert (load_fails (Some broken_file)) as H.
  { split; [repeat constructor; simpl; lia|by left]. }
  split; [exact H|].
  exact (proj2 (proj1 (Run_load_error (Some broken_file) false (Some pantry))) H).
Defined.

Lemma contiguous_insert s t : contiguous s → contiguous (<[Itoa (len s) := t]> s).
Proof.
  intros Hc.
  assert (s !! Itoa (len s) = None) as Hfresh.
  { apply not_elem_of_dom. rewrite Hc. apply Itoa_not_in_keys_upto. }
  apply (contiguous_intro _ (len s + 1)); [unfold len; lia|].
  rewrite dom_insert_L, Hc, keys_upto_succ; [done|unfold len; lia].
Qed.

Lemma contiguous_same_dom s s' : dom s' = dom s → contiguous s → contiguous s'.
Proof.
  intros Hdom Hc. unfold contiguous, len in *.
  by rewrite <- (size_dom s'), Hdom, size_dom.
Qed.

Lemma step_contiguous s s' : step s s' → contiguous s → contiguous s'.
Proof.
  intros Hstep Hc. destruct Hstep as [s t|s id t|s id ord Hord|s].
  - by apply contiguous_insert.
  - eapply contiguous_same_dom; [|done].
    unfold UpdateTodo. destruct (s !! id) as [old|] eqn:Hid; [|done]. simpl.
    rewrite dom_insert_L. apply elem_of_dom_2 in Hid. apply set_eq. intros k.
    rewrite elem_of_union, elem_of_singleton.
    split; [by intros [->|?]|by right].
  - destruct (s !! id) as [old|] eqn:Hid.
    + destruct (RemoveTodo_numbered ord s id (mk_is_Some _ _ Hid))
        as (n' & Hn' & _).
      by destruct (numbered_elim _ _ Hn').
    + unfold RemoveTodo. by rewrite Hid.
  - by destruct (numbered_elim _ _ numbered_empty).
Qed.

Lemma load_contiguous file (old : option (gmap string Todo)) s' :
  Initialize true old file = Some (Some s') → contiguous s'.
Proof.
  unfold Initialize.
  destruct (getDataFromFile_outcome file)
    as [[Hp ->]|[[Hf [e ->]]|(f & rows & m & -> & Hcsv & Hall & -> & Hdom & _)]];
    simpl; [done|done|].
  intros [= <-]. apply (contiguous_intro _ _ (Nat2Z.is_nonneg _) Hdom).
Qed.

(** X9. The keys of the store are always the decimal strings "0" .. "n-1",
    n its size, also across loads: every store that calls of [AddTodo],
    [UpdateTodo], [RemoveTodo], [DeleteAllTodos] and successful loads of any
    data file build from the empty store has contiguous keys (its todos
    need not carry them as [Id]). *)
Theorem reachable_with_loads_contiguous s :
  rtc step_or_load ∅ s → contiguous s.
Proof.
  revert s. apply (rtc_ind_r (λ s, contiguous s) ∅).
  - by destruct (numbered_elim _ _ numbered_empty).
  - intros s s' _ Hstep IH. destruct Hstep as [s s' Hstep|s file s' Hload].
    + by eapply step_contiguous.
    + by eapply load_contiguous.
Qed.

Lemma reachable_with_loads_contiguous_witness :
  rtc step_or_load ∅ shuffled ∧ contiguous shuffled.
Proof.
  assert (rtc step_or_load ∅ shuffled) as H.
  { eapply rtc_l; [|apply rtc_refl].
    apply (sol_load ∅ (Some (mkFile (csv_of_rows shuffled_rows) true))).
    vm_compute. reflexivity. }
  split; [exact H|]. exact (reachable_with_loads_contiguous shuffled H).
Defined.

End startup_facts.

Section save_load.
Import strconv.
Implicit Types (m s : gmap string Todo) (n : Z).
Implicit Types (ord : list (string * Todo)).

(** What [UpdateDataInFile] writes: one record per todo, in the order of
    the visit. *)
Lemma UpdateDataInFile_rows ord s (dataFile : list (list string)) :
  UpdateDataInFile true ord s dataFile = Serialize <$> ord.*2.
Proof.
  unfold UpdateDataInFile, range.
  assert (∀ written : list (list string),
    foldl (λ a kv, (a ++ [Serialize kv.2])%list) written ord
    = (written ++ (Serialize <$> ord.*2))%list) as H.
  { induction ord as [|[k t] ord IH]; intros written; simpl.
    - by rewrite app_nil_r.
    - by rewrite IH, <- app_assoc. }
  apply H.
Qed.

Lemma parseTodoData_of_Serialize (t : Todo) :
  parseTodoData (Serialize t) = Some t.
Proof.
  destruct t as [id title description terminated].
  unfold Serialize, parseTodoData. simpl. by rewrite ToBool_FormatBool.
Qed.

(** The entries of a map with contiguous keys, in key order. *)
Lemma contiguous_entries m n :
  0 ≤ n → dom m = keys_upto n →
  map_to_list m ≡ₚ (λ i, (Itoa i, m !!! Itoa i)) <$> seqZ 0 n.
Proof.
  intros Hn Hdom.
  assert (∀ k, is_Some (m !! k) ↔ ∃ i, 0 ≤ i < n ∧ k = Itoa i) as Hlook.
  { intros k. by rewrite <- elem_of_dom, Hdom, elem_of_keys_upto. }
  apply NoDup_Permutation.
  - apply NoDup_map_to_list.
  - apply (NoDup_fmap_1 fst). rewrite <- list_fmap_compose.
    change (NoDup (Itoa <$> seqZ 0 n)).
    apply NoDup_fmap_2; [apply _|apply NoDup_seqZ].
  - intros [k t]. rewrite elem_of_map_to_list, list_elem_of_fmap. split.
    + intros Hk.
      destruct (proj1 (Hlook k) (mk_is_Some _ _ Hk)) as (i & Hi & ->).
      exists i. split; [|apply elem_of_seqZ; lia].
      by rewrite (lookup_total_correct _ _ _ Hk).
    + intros (i & [= -> ->] & Hi). apply elem_of_seqZ in Hi.
      apply lookup_lookup_total, Hlook.
      exists i. split; [lia|done].
Qed.

(** X10. Saving a store and loading what was written, when the reader
    hands out the records as written: the load succeeds and the store it
    leaves holds the same todos, [Id]s included, each under the index of
    its record, that is of its rank in the visit of the save. It is the
    store saved when the save visited it in key order. *)
Theorem save_then_load ord s (dataFile : list (list string)) :
  ranges ord s →
  ∃ s',
    (∀ old, Initialize true old
              (Some (mkFile (csv_of_rows (UpdateDataInFile true ord s dataFile))
                       true))
            = Some (Some s')) ∧
    dom s' = keys_upto (len s) ∧
    (∀ i : nat, s' !! Itoa (Z.of_nat i) = ord.*2 !! i) ∧
    (map_to_list s').*2 ≡ₚ (map_to_list s).*2 ∧
    ((∀ (i : nat) kv, ord !! i = Some kv → kv.1 = Itoa (Z.of_nat i)) → s' = s).
Proof.
  intros Hord. rewrite UpdateDataInFile_rows.
  assert (length ord = size s) as Hlen.
  { unfold ranges in Hord. by rewrite Hord, length_map_to_list. }
  destruct (getDataFromFile_loop_rows (Serialize <$> ord.*2) ∅ 0)
    as (s' & Heq & Hdom & Hl & _); [done|by rewrite dom_empty_L| |].
  { apply Forall_fmap, Forall_forall. intros t _. simpl. lia. }
  rewrite Z.add_0_l, !length_fmap in Hdom.
  assert (∀ i : nat, s' !! Itoa (Z.of_nat i) = ord.*2 !! i) as Hl'.
  { intros i. specialize (Hl i). rewrite Z.add_0_l in Hl. rewrite Hl.
    rewrite list_lookup_fmap. destruct (ord.*2 !! i) as [t|]; [|done].
    simpl. apply parseTodoData_of_Serialize. }
  assert (dom s' = keys_upto (len s)) as Hdom'.
  { unfold len. by rewrite <- Hlen. }
  exists s'. split; [|split; [done|split; [done|split]]].
  - intros old. unfold Initialize, getDataFromFile. simpl. by rewrite Heq.
  - rewrite (contiguous_entries s' (Z.of_nat (length ord))) by (done || lia).
    rewrite <- list_fmap_compose.
    unfold ranges in Hord. rewrite <- Hord.
    replace ((snd ∘ λ i, (Itoa i, s' !!! Itoa i)) <$> seqZ 0 (Z.of_nat (length ord)))
      with ord.*2; [done|].
    apply list_eq. intros i. symmetry.
    rewrite (list_lookup_fmap _ (seqZ 0 (Z.of_nat (length ord))) i).
    destruct (decide (i < length ord)%nat) as [Hlt|Hge].
    + rewrite (lookup_seqZ_lt 0 _ i) by lia. simpl. rewrite Z.add_0_l.
      destruct (lookup_lt_is_Some_2 ord.*2 i) as [t Ht];
        [by rewrite length_fmap|].
      rewrite Ht. f_equal. apply lookup_total_correct.
      by rewrite Hl'.
    + rewrite (lookup_seqZ_ge 0 _ i) by lia. simpl. symmetry.
      apply lookup_ge_None_2. rewrite length_fmap. lia.
  - intros Hkeys. apply map_eq. intros k.
    destruct (s' !! k) as [t|] eqn:Hk.
    + assert (k ∈ dom s') as Hin by by apply elem_of_dom_2 in Hk.
      rewrite Hdom in Hin. apply elem_of_keys_upto in Hin as (i & Hi & ->).
      rewrite <- (Z2Nat.id i) in Hk |- * by lia.
      rewrite Hl', list_lookup_fmap in Hk.
      destruct (ord !! Z.to_nat i) as [[k' t']|] eqn:Hi'; [|done].
      simpl in Hk. injection Hk as ->.
      pose proof (Hkeys _ _ Hi') as Hk'. simpl in Hk'. subst k'.
      symmetry. apply elem_of_map_to_list. unfold ranges in Hord.
      rewrite <- Hord. by eapply list_elem_of_lookup_2.
    + symmetry. apply eq_None_not_Some. intros [t Ht].
      apply elem_of_map_to_list in Ht. unfold ranges in Hord.
      rewrite <- Hord in Ht. apply list_elem_of_lookup in Ht as [i Hi].
      pose proof (Hkeys _ _ Hi) as Hk'. simpl in Hk'. subst k.
      rewrite Hl', list_lookup_fmap, Hi in Hk. done.
Qed.

Lemma save_then_load_witness :
  ranges [("0", milk); ("1", bread)] pantry ∧
  ∃ s',
    (∀ old, Initialize true old
              (Some (mkFile (csv_of_rows
                               (UpdateDataInFile true [("0", milk); ("1", bread)]
                                  pantry []))
                       true))
            = Some (Some s')) ∧
    dom s' = keys_upto (len pantry) ∧
    (∀ i : nat, s' !! Itoa (Z.of_nat i) = [("0", milk); ("1", bread)].*2 !! i) ∧
    (map_to_list s').*2 ≡ₚ (map_to_list pantry).*2 ∧
    ((∀ (i : nat) kv, [("0", milk); ("1", bread)] !! i = Some kv →
        kv.1 = Itoa (Z.of_nat i)) → s' = pantry).
Proof.
  split; [exact ranges_pantry|].
  exact (save_then_load _ pantry [] ranges_pantry).
Defined.

End save_load.

(* ===================================================================== *)
(** * More on the handlers *)
(* ===================================================================== *)

Section routes_facts.
Import strconv.
Implicit Types (s : gmap string Todo) (ord : list (string * Todo)).
Implicit Types (params : list (string * string)) (request : Request).
Implicit Types (dataFile : list (list string)).

Lemma ByName_single (name value : string) :
  ByName [(name, value)] name = value.
Proof.
  unfold ByName. cbn. by destruct (decide (name = name)).
Qed.

(** X11. GET /todos/:id answers 404 with the "Record Not Found" error when
    the id is no key of the store, and otherwise 200 with the todo stored
    under that key. *)
Theorem TodoGetById_spec ord_clone s params :
  ranges ord_clone s →
  (s !! ByName params "id" = None →
   routes.TodoGetById ord_clone s ResponseWriter_new params
   = mkResponseWriter json_header (Some 404)
       [JsonErrorResponse (mkApiError 404 "Record Not Found")]) ∧
  (∀ todo, s !! ByName params "id" = Some todo →
   routes.TodoGetById ord_clone s ResponseWriter_new params
   = mkResponseWriter json_header (Some 200) [JsonExtendedResponse todo]).
Proof.
  intros Hclone. unfold routes.TodoGetById, TodoStore.
  rewrite clone_ranges by done.
  split; [by intros ->|]. by intros todo ->.
Qed.

Lemma TodoGetById_spec_witness :
  ranges [("0", milk); ("1", bread)] pantry ∧
  pantry !! ByName put_params "id" = Some bread ∧
  routes.TodoGetById [("0", milk); ("1", bread)] pantry ResponseWriter_new
    put_params
  = mkResponseWriter json_header (Some 200) [JsonExtendedResponse bread].
Proof.
  assert (pantry !! ByName put_params "id" = Some bread) as H by reflexivity.
  split; [exact ranges_pantry|]. split; [exact H|].
  exact (proj2 (TodoGetById_spec _ pantry put_params ranges_pantry) bread H).
Defined.

Section post.
Variable json_Decode : string → Todo → option Todo.

(** X12. POST /todos on a store whose keys are "0" .. "n-1": when the body
    is nil or does not decode it answers 400 "Invalid Body" and changes
    neither the store nor the data file; otherwise it answers 201 with the
    decoded todo, its [Id] replaced by the decimal string of n, stores that
    todo under that key, which was free, keeps every other entry, and
    rewrites the data file from the new store. *)
Theorem TodoPost_spec ord_save (filePersistence : bool) s dataFile request :
  contiguous s →
  (decodeTodo json_Decode request Todo_zero = None →
   routes.TodoPost json_Decode ord_save filePersistence s dataFile
     ResponseWriter_new request
   = (s, dataFile,
      mkResponseWriter json_header (Some 400)
        [JsonErrorResponse (mkApiError 400 "Invalid Body")])) ∧
  (∀ todo, decodeTodo json_Decode request Todo_zero = Some todo →
   ∃ s',
     routes.TodoPost json_Decode ord_save filePersistence s dataFile
       ResponseWriter_new request
     = (s', UpdateDataInFile filePersistence ord_save s' dataFile,
        mkResponseWriter json_header (Some 201)
          [JsonExtendedResponse (set_Id (Itoa (len s)) todo)]) ∧
     size s' = S (size s) ∧
     s' !! Itoa (len s) = Some (set_Id (Itoa (len s)) todo) ∧
     ∀ k, is_Some (s !! k) → s' !! k = s !! k).
Proof.
  intros Hc. unfold routes.TodoPost. split; [by intros ->|].
  intros todo ->. cbn [AddTodo].
  assert (s !! Itoa (len s) = None) as Hfresh.
  { apply not_elem_of_dom. rewrite Hc. apply Itoa_not_in_keys_upto. }
  eexists. split; [done|].
  split; [by apply map_size_insert_None|].
  split; [apply lookup_insert_eq|].
  intros k Hk. apply lookup_insert_ne. intros <-.
  rewrite Hfresh in Hk. by destruct Hk.
Qed.

(** X13. The id that POST /todos returns retrieves the todo created: after
    a successful POST, GET /todos/:id with the [Id] of the todo in the
    response answers 200 with that same todo. *)
Theorem TodoPost_then_TodoGetById ord_save ord_clone (filePersistence : bool)
    s dataFile request todo :
  decodeTodo json_Decode request Todo_zero = Some todo →
  ranges ord_clone
    (routes.TodoPost json_Decode ord_save filePersistence s dataFile
       ResponseWriter_new request).1.1 →
  ∃ created,
    body (routes.TodoPost json_Decode ord_save filePersistence s dataFile
            ResponseWriter_new request).2
    = [JsonExtendedResponse created] ∧
    routes.TodoGetById ord_clone
      (routes.TodoPost json_Decode ord_save filePersistence s dataFile
         ResponseWriter_new request).1.1
      ResponseWriter_new [("id", Id created)]
    = mkResponseWriter json_header (Some 200) [JsonExtendedResponse created].
Proof.
  intros Hdec. unfold routes.TodoPost. rewrite Hdec. cbn [fst snd AddTodo].
  intros Hclone. exists (set_Id (Itoa (len s)) todo). split; [done|].
  unfold routes.TodoGetById, TodoStore. rewrite clone_ranges by done.
  rewrite ByName_single. cbn [set_Id Id].
  by rewrite lookup_insert_eq.
Qed.

End post.

Lemma TodoPost_spec_witness :
  contiguous pantry ∧
  decodeTodo sample_Decode put_request Todo_zero
  = Some (mkTodo EmptyString "stamps" EmptyString false) ∧
  ∃ s',
    routes.TodoPost sample_Decode [] false pantry [] ResponseWriter_new
      put_request
    = (s', UpdateDataInFile false [] s' [],
       mkResponseWriter json_header (Some 201)
         [JsonExtendedResponse
            (set_Id (Itoa (len pantry))
               (mkTodo EmptyString "stamps" EmptyString false))]) ∧
    size s' = S (size pantry) ∧
    s' !! Itoa (len pantry)
    = Some (set_Id (Itoa (len pantry))
              (mkTodo EmptyString "stamps" EmptyString false)) ∧
    ∀ k, is_Some (pantry !! k) → s' !! k = pantry !! k.
Proof.
  assert (contiguous pantry) as Hc by (vm_compute; reflexivity).
  assert (decodeTodo sample_Decode put_request Todo_zero
          = Some (mkTodo EmptyString "stamps" EmptyString false)) as H
    by reflexivity.
  split; [exact Hc|]. split; [exact H|].
  exact (proj2 (TodoPost_spec sample_Decode [] false pantry [] put_request Hc)
           _ H).
Defined.

Lemma ranges_pantry_posted :
  ranges [("0", milk); ("1", bread);
          ("2", mkTodo "2" "stamps" EmptyString false)]
    (routes.TodoPost sample_Decode [] false pantry [] ResponseWriter_new
       put_request).1.1.
Proof.
  unfold ranges. vm_compute.
  apply NoDup_Permutation.
  - repeat constructor; rewrite ?list_elem_of_In; simpl; intuition congruence.
  - repeat constructor; rewrite ?list_elem_of_In; simpl; intuition congruence.
  - intros x. rewrite !list_elem_of_In. simpl. tauto.
Qed.

Lemma TodoPost_then_TodoGetById_witness :
  decodeTodo sample_Decode put_request Todo_zero
  = Some (mkTodo EmptyString "stamps" EmptyString false) ∧
  ∃ created,
    body (routes.TodoPost sample_Decode [] false pantry []
            ResponseWriter_new put_request).2
    = [JsonExtendedResponse created] ∧
    routes.TodoGetById
      [("0", milk); ("1", bread); ("2", mkTodo "2" "stamps" EmptyString false)]
      (routes.TodoPost sample_Decode [] false pantry []
         ResponseWriter_new put_request).1.1
      ResponseWriter_new [("id", Id created)]
    = mkResponseWriter json_header (Some 200) [JsonExtendedResponse created].
Proof.
  assert (decodeTodo sample_Decode put_request Todo_zero
          = Some (mkTodo EmptyString "stamps" EmptyString false)) as H
    by reflexivity.
  split; [exact H|].
  exact (TodoPost_then_TodoGetById sample_Decode [] _ false pantry []
           put_request _ H ranges_pantry_posted).
Defined.

End routes_facts.

Section delete_facts.
Import strconv.
Implicit Types (s : gmap string Todo) (ord : list (string * Todo)).
Implicit Types (params : list (string * string)) (request : Request).
Implicit Types (dataFile : list (list string)).

(** X14. DELETE /todos/:id answers 404 and changes neither the store nor
    the data file when the id is no key of the store; otherwise it answers
    200 without a body, the store becomes what [RemoveTodo] leaves and the
    data file is rewritten from it. *)
Theorem TodoDelete_spec ord_clone ord_remove ord_save (filePersistence : bool)
    s dataFile params :
  ranges ord_clone s →
  (s !! ByName params "id" = None →
   routes.TodoDelete ord_clone ord_remove ord_save filePersistence s dataFile
     ResponseWriter_new params
   = (s, dataFile,
      mkResponseWriter json_header (Some 404)
        [JsonErrorResponse (mkApiError 404 "Record Not Found")])) ∧
  (is_Some (s !! ByName params "id") →
   routes.TodoDelete ord_clone ord_remove ord_save filePersistence s dataFile
     ResponseWriter_new params
   = ((RemoveTodo ord_remove s (ByName params "id")).1,
      UpdateDataInFile filePersistence ord_save
        (RemoveTodo ord_remove s (ByName params "id")).1 dataFile,
      mkResponseWriter json_header (Some 200) [])).
Proof.
  intros Hclone. unfold routes.TodoDelete, TodoStore.
  rewrite clone_ranges by done.
  split; [by intros ->|]. intros [old Hid]. rewrite Hid.
  by destruct (RemoveTodo ord_remove s (ByName params "id")).
Qed.

Lemma TodoDelete_spec_witness :
  ranges [("0", milk); ("1", bread)] pantry ∧
  is_Some (pantry !! ByName put_params "id") ∧
  routes.TodoDelete [("0", milk); ("1", bread)] [("0", milk); ("1", bread)] []
    false pantry [] ResponseWriter_new put_params
  = ((RemoveTodo [("0", milk); ("1", bread)] pantry (ByName put_params "id")).1,
     UpdateDataInFile false []
       (RemoveTodo [("0", milk); ("1", bread)] pantry
          (ByName put_params "id")).1 [],
     mkResponseWriter json_header (Some 200) []).
Proof.
  assert (is_Some (pantry !! ByName put_params "id")) as H by (by eexists).
  split; [exact ranges_pantry|]. split; [exact H|].
  exact (proj2 (TodoDelete_spec _ _ [] false pantry [] put_params ranges_pantry) H).
Defined.

(** X15. Deleting shifts the ids: in a store of n todos that carry their
    keys, after DELETE /todos/:id of any id present, GET /todos/:id answers
    200 for the ids "0" .. "n-2" and 404 for "n-1", whichever todo was
    deleted and in whatever order the loops visit the store. *)
Theorem TodoDelete_then_TodoGetById ord_clone ord_remove ord_save ord_clone'
    (filePersistence : bool) s n dataFile params :
  numbered s n → is_Some (s !! ByName params "id") →
  ranges ord_clone s → ranges ord_remove s →
  ranges ord_clone'
    (routes.TodoDelete ord_clone ord_remove ord_save filePersistence s dataFile
       ResponseWriter_new params).1.1 →
  routes.TodoGetById ord_clone'
    (routes.TodoDelete ord_clone ord_remove ord_save filePersistence s dataFile
       ResponseWriter_new params).1.1
    ResponseWriter_new [("id", Itoa (n - 1))]
  = mkResponseWriter json_header (Some 404)
      [JsonErrorResponse (mkApiError 404 "Record Not Found")] ∧
  ∀ i, 0 ≤ i < n - 1 →
    status (routes.TodoGetById ord_clone'
              (routes.TodoDelete ord_clone ord_remove ord_save filePersistence
                 s dataFile ResponseWriter_new params).1.1
              ResponseWriter_new [("id", Itoa i)])
    = Some 200.
Proof.
  intros Hs Hid Hclone Hremove.
  unfold routes.TodoDelete at 1 2 3, TodoStore. rewrite clone_ranges by done.
  destruct Hid as [old Hid]. rewrite Hid.
  pose proof (numbered_len _ _ Hs) as Hlen.
  destruct (RemoveTodo_numbered ord_remove s (ByName params "id")
              (mk_is_Some _ _ Hid)) as (n' & Hn' & _ & Hcount).
  pose proof (RemoveTodo_kept s (ByName params "id") ord_remove Hremove
                (proj2 (proj2 Hs)) (mk_is_Some _ _ Hid)) as Hkept.
  assert (n' = n - 1) as -> by (unfold len in Hlen; lia).
  destruct (RemoveTodo ord_remove s (ByName params "id")) as [s' b].
  cbn [fst snd] in *. intros Hclone'.
  unfold routes.TodoGetById, TodoStore. rewrite clone_ranges by done.
  split.
  - rewrite ByName_single.
    assert (s' !! Itoa (n - 1) = None) as ->; [|done].
    apply eq_None_not_Some. rewrite (numbered_lookup _ _ _ Hn').
    intros (j & Hj & Heq). apply Itoa_inj in Heq. lia.
  - intros i Hi. rewrite ByName_single.
    destruct (proj2 (numbered_lookup s' (n - 1) (Itoa i) Hn')) as [t ->];
      [by exists i|done].
Qed.

Lemma TodoDelete_then_TodoGetById_witness :
  numbered pantry 2 ∧
  routes.TodoGetById [("0", mkTodo "0" "bread" "rye" true)]
    (routes.TodoDelete [("0", milk); ("1", bread)] [("0", milk); ("1", bread)]
       [] false pantry [] ResponseWriter_new [("id", "0")]).1.1
    ResponseWriter_new [("id", Itoa (2 - 1))]
  = mkResponseWriter json_header (Some 404)
      [JsonErrorResponse (mkApiError 404 "Record Not Found")].
Proof.
  assert (numbered pantry 2) as Hn.
  { split; [lia|]. split; [vm_compute; reflexivity|exact ids_are_keys_pantry]. }
  split; [exact Hn|].
  refine (proj1 (TodoDelete_then_TodoGetById
                   [("0", milk); ("1", bread)] [("0", milk); ("1", bread)] []
                   [("0", mkTodo "0" "bread" "rye" true)] false pantry 2 []
                   [("id", "0")] Hn _ ranges_pantry ranges_pantry _)).
  - by eexists.
  - unfold ranges. vm_compute. reflexivity.
Defined.

(** X16. DELETE /todos answers 200 with neither header nor body, leaves the
    store empty and, with persistence on, the data file without a record;
    after it the listing is empty and the next todo added gets the id
    "0". *)
Theorem DeleteAllTodos_spec ord_save (filePersistence : bool) s dataFile :
  ranges ord_save
    (routes.DeleteAllTodos ord_save filePersistence s dataFile
       ResponseWriter_new).1.1 →
  routes.DeleteAllTodos ord_save filePersistence s dataFile ResponseWriter_new
  = (∅, if filePersistence then [] else dataFile,
     mkResponseWriter ∅ (Some 200) []) ∧
  (∀ ord_clone ord,
     ranges ord_clone (∅ : gmap string Todo) →
     ranges ord (TodoStore ord_clone ∅) →
     TodosGet ord_clone ord ∅ ResponseWriter_new
     = mkResponseWriter json_header (Some 200) [JsonDataResponse []]) ∧
  (∀ todo, (AddTodo ∅ todo).2 = set_Id "0" todo).
Proof.
  unfold routes.DeleteAllTodos, DeleteAllTodos. cbn [fst snd].
  unfold ranges at 1. rewrite map_to_list_empty. intros ->%Permutation_nil_r.
  split; [by destruct filePersistence|]. split; [|done].
  intros ord_clone ord Hclone. unfold TodoStore. rewrite clone_ranges by done.
  unfold ranges in *. rewrite map_to_list_empty in *.
  apply Permutation_nil_r in Hclone as ->. by intros ->%Permutation_nil_r.
Qed.

Lemma DeleteAllTodos_spec_witness :
  ranges []
    (routes.DeleteAllTodos [] true pantry pantry_rows ResponseWriter_new).1.1 ∧
  routes.DeleteAllTodos [] true pantry pantry_rows ResponseWriter_new
  = (∅, [], mkResponseWriter ∅ (Some 200) []).
Proof.
  assert (ranges []
    (routes.DeleteAllTodos [] true pantry pantry_rows ResponseWriter_new).1.1)
    as H by (unfold ranges; vm_compute; reflexivity).
  split; [exact H|].
  exact (proj1 (DeleteAllTodos_spec [] true pantry pantry_rows H)).
Defined.

End delete_facts.

(* ===================================================================== *)
(** * What every request keeps *)
(* ===================================================================== *)

Section serve_facts.
Import strconv.
Variable json_Decode : string → Todo → option Todo.
Implicit Types (s : gmap string Todo) (ord : list (string * Todo)).
Implicit Types (dataFile : list (list string)) (call : Call).

Lemma not_refused_200 (header : gmap string string) (body : list JsonResponse)
    (code : Z) :
  code < 400 → ¬ refused (mkResponseWriter header (Some code) body).
Proof.
  intros Hlt (c & [= <-] & Hc). lia.
Qed.

Lemma RemoveTodo_contiguous ord s id :
  contiguous s → contiguous (RemoveTodo ord s id).1.
Proof.
  intros Hc. destruct (s !! id) as [old|] eqn:Hid.
  - destruct (RemoveTodo_numbered ord s id (mk_is_Some _ _ Hid))
      as (n' & Hn' & _).
    by destruct (numbered_elim _ _ Hn').
  - unfold RemoveTodo. by rewrite Hid.
Qed.

Lemma UpdateTodo_contiguous s id t :
  contiguous s → contiguous (UpdateTodo s id t).1.
Proof. intros Hc. eapply step_contiguous; [apply step_UpdateTodo|done]. Qed.

Lemma UpdateDataInFile_mirrors ord s dataFile :
  ranges ord s → mirrors (UpdateDataInFile true ord s dataFile) s.
Proof.
  intros Hord. unfold mirrors. rewrite UpdateDataInFile_rows.
  unfold ranges in Hord. by rewrite Hord.
Qed.

(** The shape of what [TodoPut] returns. *)
Lemma TodoPut_cases ord_clone ord_save (filePersistence : bool) s dataFile
    request params :
  (∃ writer, refused writer ∧
     TodoPut json_Decode ord_clone ord_save filePersistence s dataFile
       ResponseWriter_new request params = (s, dataFile, writer)) ∨
  (∃ id todo writer, ¬ refused writer ∧
     TodoPut json_Decode ord_clone ord_save filePersistence s dataFile
       ResponseWriter_new request params
     = ((UpdateTodo s id todo).1,
        UpdateDataInFile filePersistence ord_save (UpdateTodo s id todo).1
          dataFile,
        writer)).
Proof.
  unfold TodoPut.
  destruct (TodoStore ord_clone s !! ByName params "id").
  2:{ left. eexists. split; [|done]. exists 404. by split. }
  destruct (decodeTodo json_Decode request Todo_zero) as [todo|].
  2:{ left. eexists. split; [|done]. exists 400. by split. }
  destruct (UpdateTodo s (ByName params "id") todo) as [s' [t' ok]] eqn:Hup.
  destruct ok; cbn [negb].
  - right. exists (ByName params "id"), todo. rewrite Hup. cbn [fst].
    eexists. split; [|done]. by apply not_refused_200.
  - left. assert (s' = s) as ->.
    { revert Hup. unfold UpdateTodo.
      destruct (s !! ByName params "id"); by intros [= <- <-]. }
    eexists. split; [|done]. exists 400. by split.
Qed.

(** The shape of what [TodoPost] returns. *)
Lemma TodoPost_cases ord_save (filePersistence : bool) s dataFile request :
  (∃ writer, refused writer ∧
     routes.TodoPost json_Decode ord_save filePersistence s dataFile
       ResponseWriter_new request = (s, dataFile, writer)) ∨
  (∃ todo writer, ¬ refused writer ∧
     routes.TodoPost json_Decode ord_save filePersistence s dataFile
       ResponseWriter_new request
     = ((AddTodo s todo).1,
        UpdateDataInFile filePersistence ord_save (AddTodo s todo).1 dataFile,
        writer)).
Proof.
  unfold routes.TodoPost.
  destruct (decodeTodo json_Decode request Todo_zero) as [todo|].
  - right. exists todo. eexists. split; [|done]. by apply not_refused_200.
  - left. eexists. split; [|done]. exists 400. by split.
Qed.

(** The shape of what [TodoDelete] returns. *)
Lemma TodoDelete_cases ord_clone ord_remove ord_save (filePersistence : bool)
    s dataFile params :
  (∃ writer, refused writer ∧
     routes.TodoDelete ord_clone ord_remove ord_save filePersistence s dataFile
       ResponseWriter_new params = (s, dataFile, writer)) ∨
  (∃ id writer, ¬ refused writer ∧
     routes.TodoDelete ord_clone ord_remove ord_save filePersistence s dataFile
       ResponseWriter_new params
     = ((RemoveTodo ord_remove s id).1,
        UpdateDataInFile filePersistence ord_save (RemoveTodo ord_remove s id).1
          dataFile,
        writer)).
Proof.
  unfold routes.TodoDelete.
  destruct (TodoStore ord_clone s !! ByName params "id").
  - right. exists (ByName params "id").
    destruct (RemoveTodo ord_remove s (ByName params "id")) as [s' b].
    eexists. split; [|done]. by apply not_refused_200.
  - left. eexists. split; [|done]. exists 404. by split.
Qed.

(** X17. With persistence off no request changes the data file. *)
Theorem serve_persistence_off ord_clone ord_loop ord_save s dataFile call :
  (serve json_Decode ord_clone ord_loop ord_save false s dataFile call).1.2
  = dataFile.
Proof.
  destruct call as [|params|request|request params|params|]; cbn [serve];
    try done.
  - destruct (TodoPost_cases ord_save false s dataFile request)
      as [(w & _ & ->)|(todo & w & _ & ->)]; done.
  - destruct (TodoPut_cases ord_clone ord_save false s dataFile request params)
      as [(w & _ & ->)|(id & todo & w & _ & ->)]; done.
  - destruct (TodoDelete_cases ord_clone ord_loop ord_save false s dataFile
                params) as [(w & _ & ->)|(id & w & _ & ->)]; done.
Qed.

(** X18. A request that is answered with a status of 400 or more changes
    neither the store nor the data file. *)
Theorem serve_refused_unchanged ord_clone ord_loop ord_save
    (filePersistence : bool) s dataFile call :
  refused (serve json_Decode ord_clone ord_loop ord_save filePersistence s
             dataFile call).2 →
  (serve json_Decode ord_clone ord_loop ord_save filePersistence s dataFile
     call).1
  = (s, dataFile).
Proof.
  destruct call as [|params|request|request params|params|]; cbn [serve];
    try done.
  - destruct (TodoPost_cases ord_save filePersistence s dataFile request)
      as [(w & _ & ->)|(todo & w & Hw & ->)]; [done|].
    cbn [fst snd]. by intros ?.
  - destruct (TodoPut_cases ord_clone ord_save filePersistence s dataFile
                request params)
      as [(w & _ & ->)|(id & todo & w & Hw & ->)]; [done|].
    cbn [fst snd]. by intros ?.
  - destruct (TodoDelete_cases ord_clone ord_loop ord_save filePersistence s
                dataFile params) as [(w & _ & ->)|(id & w & Hw & ->)]; [done|].
    cbn [fst snd]. by intros ?.
  - unfold routes.DeleteAllTodos. cbn [fst snd].
    intros Hr. exfalso. revert Hr. by apply not_refused_200.
Qed.

(** X19. No request breaks the numbering of the keys: served on a store
    whose keys are "0" .. "n-1", every request leaves a store whose keys
    are "0" .. "n'-1", whatever the orders of the visits. *)
Theorem serve_contiguous ord_clone ord_loop ord_save (filePersistence : bool)
    s dataFile call :
  contiguous s →
  contiguous (serve json_Decode ord_clone ord_loop ord_save filePersistence s
                dataFile call).1.1.
Proof.
  intros Hc.
  destruct call as [|params|request|request params|params|]; cbn [serve];
    try done.
  - destruct (TodoPost_cases ord_save filePersistence s dataFile request)
      as [(w & _ & ->)|(todo & w & _ & ->)]; [done|].
    cbn [fst snd]. by apply contiguous_insert.
  - destruct (TodoPut_cases ord_clone ord_save filePersistence s dataFile
                request params)
      as [(w & _ & ->)|(id & todo & w & _ & ->)]; [done|].
    cbn [fst snd]. by apply UpdateTodo_contiguous.
  - destruct (TodoDelete_cases ord_clone ord_loop ord_save filePersistence s
                dataFile params) as [(w & _ & ->)|(id & w & _ & ->)]; [done|].
    cbn [fst snd]. by apply RemoveTodo_contiguous.
Qed.

(** X20. With persistence on, after every request that may change the
    store and is not refused, the data file is the list of the records that
    [Serialize] gives for the todos that the save visited, one after the
    other in the order of that visit; the visit being one of the resulting
    store, the file holds exactly one record per todo of the store. *)
Theorem serve_mirrors ord_clone ord_loop ord_save s dataFile call :
  reads_only call = false →
  ¬ refused (serve json_Decode ord_clone ord_loop ord_save true s dataFile
               call).2 →
  ranges ord_save
    (serve json_Decode ord_clone ord_loop ord_save true s dataFile call).1.1 →
  written_in_order
    (serve json_Decode ord_clone ord_loop ord_save true s dataFile call).1.2
    ord_save ∧
  mirrors
    (serve json_Decode ord_clone ord_loop ord_save true s dataFile call).1.2
    (serve json_Decode ord_clone ord_loop ord_save true s dataFile call).1.1.
Proof.
  unfold written_in_order.
  destruct call as [|params|request|request params|params|]; cbn [serve];
    try done; intros _.
  - destruct (TodoPost_cases ord_save true s dataFile request)
      as [(w & Hw & ->)|(todo & w & _ & ->)]; [done|].
    cbn [fst snd]. intros _ Hord.
    split; [apply UpdateDataInFile_rows|by apply UpdateDataInFile_mirrors].
  - destruct (TodoPut_cases ord_clone ord_save true s dataFile request params)
      as [(w & Hw & ->)|(id & todo & w & _ & ->)]; [done|].
    cbn [fst snd]. intros _ Hord.
    split; [apply UpdateDataInFile_rows|by apply UpdateDataInFile_mirrors].
  - destruct (TodoDelete_cases ord_clone ord_loop ord_save true s dataFile
                params) as [(w & Hw & ->)|(id & w & _ & ->)]; [done|].
    cbn [fst snd]. intros _ Hord.
    split; [apply UpdateDataInFile_rows|by apply UpdateDataInFile_mirrors].
  - unfold routes.DeleteAllTodos. cbn [fst snd]. intros _ Hord.
    split; [apply UpdateDataInFile_rows|by apply UpdateDataInFile_mirrors].
Qed.

End serve_facts.

(* ===================================================================== *)
(** * The requests on the sample stores *)
(* ===================================================================== *)

Lemma numbered_pantry : numbered pantry 2.
Proof.
  split; [lia|]. split; [vm_compute; reflexivity|exact ids_are_keys_pantry].
Qed.

Lemma TodosGet_in_key_order_witness :
  numbered pantry 2 ∧ 2 ≤ 2 ^ 63 ∧
  TodosGet [("0", milk); ("1", bread)] [("1", bread); ("0", milk)] pantry
    ResponseWriter_new
  = mkResponseWriter json_header (Some 200)
      [JsonDataResponse (in_key_order pantry 2)].
Proof.
  assert (2 ≤ 2 ^ 63) as H by (vm_compute; discriminate).
  split; [exact numbered_pantry|]. split; [exact H|].
  exact (TodosGet_in_key_order pantry 2 _ _ numbered_pantry H ranges_pantry
           ranges_clone_pantry).
Defined.

Lemma serve_refused_unchanged_witness :
  refused (serve sample_Decode [("0", milk); ("1", bread)] [] [] true pantry
             pantry_rows (PUT_todos_id (mkRequest None) put_params)).2 ∧
  (serve sample_Decode [("0", milk); ("1", bread)] [] [] true pantry
     pantry_rows (PUT_todos_id (mkRequest None) put_params)).1
  = (pantry, pantry_rows).
Proof.
  assert (refused (serve sample_Decode [("0", milk); ("1", bread)] [] [] true
                     pantry pantry_rows
                     (PUT_todos_id (mkRequest None) put_params)).2) as H.
  { exists 400. split; [reflexivity|lia]. }
  split; [exact H|].
  exact (serve_refused_unchanged sample_Decode _ [] [] true pantry pantry_rows
           (PUT_todos_id (mkRequest None) put_params) H).
Defined.

Lemma serve_contiguous_witness :
  contiguous shuffled ∧
  contiguous (serve sample_Decode [] [] [] false shuffled []
                (POST_todos put_request)).1.1.
Proof.
  assert (contiguous shuffled) as H by (vm_compute; reflexivity).
  split; [exact H|].
  exact (serve_contiguous sample_Decode [] [] [] false shuffled []
           (POST_todos put_request) H).
Defined.

Lemma serve_mirrors_witness :
  reads_only (POST_todos put_request) = false ∧
  ¬ refused (serve sample_Decode [] []
               [("0", milk); ("1", bread);
                ("2", mkTodo "2" "stamps" EmptyString false)]
               true pantry [] (POST_todos put_request)).2 ∧
  written_in_order
    (serve sample_Decode [] []
       [("0", milk); ("1", bread); ("2", mkTodo "2" "stamps" EmptyString false)]
       true pantry [] (POST_todos put_request)).1.2
    [("0", milk); ("1", bread); ("2", mkTodo "2" "stamps" EmptyString false)] ∧
  mirrors
    (serve sample_Decode [] []
       [("0", milk); ("1", bread); ("2", mkTodo "2" "stamps" EmptyString false)]
       true pantry [] (POST_todos put_request)).1.2
    (serve sample_Decode [] []
       [("0", milk); ("1", bread); ("2", mkTodo "2" "stamps" EmptyString false)]
       true pantry [] (POST_todos put_request)).1.1.
Proof.
  assert (¬ refused (serve sample_Decode [] []
               [("0", milk); ("1", bread);
                ("2", mkTodo "2" "stamps" EmptyString false)]
               true pantry [] (POST_todos put_request)).2) as H.
  { intros (code & Hcode & Hge). vm_compute in Hcode.
    injection Hcode as <-. lia. }
  split; [reflexivity|]. split; [exact H|].
  exact (serve_mirrors sample_Decode [] [] _ pantry [] (POST_todos put_request)
           eq_refl H ranges_pantry_posted).
Defined.

Lemma Initialize_panics_witness :
  load_panics (Some short_file) ∧
  Initialize true (Some pantry) (Some short_file) = None.
Proof.
  assert (load_panics (Some short_file)) as H.
  { apply Exists_cons_hd. unfold short. simpl. lia. }
  split; [exact H|].
  exact (proj2 (proj1 (Initialize_panics (Some short_file) (Some pantry))) H).
Defined.

Lemma TestTodo_AddTodo_passes_witness :
  (∅ : gmap string Todo) = ∅ ∧ models_test.TestTodo_AddTodo ∅ = true.
Proof.
  split; [reflexivity|].
  exact (proj2 (TestTodo_AddTodo_passes ∅) eq_refl).
Defined.
